(** * Verification of the WebSocket connection managers of calendarKodaii

    Shallow embedding of [src/app/core/websocket/manager.py]
    ([WebSocketManager], an in-process registry) and of
    [src/app/core/websocket/redis_manager.py] ([RedisWebSocketManager], the
    same registry coordinated through a Redis directory and pub/sub). *)

From Stdlib Require Import ZArith String Ascii List Bool.
From Stdlib Require Import DecimalString DecimalZ.
From stdpp Require Import base gmap strings list.
Import ListNotations.

Open Scope Z_scope.
Set Warnings "-register-all".

(* ------------------------------------------------------------------ *)
(** ** Python values shared by both managers *)

(** Python exceptions that matter for the control flow.  [CancelledError]
    is the only one that is not a subclass of [Exception] (Python >= 3.8),
    so [except Exception] does not catch it. *)
Inductive exn :=
| CancelledError
| ConnectionError        (* transport failure of the Redis client *)
| ResponseError          (* Redis WRONGTYPE / not-an-integer replies *)
| ValueError             (* int() or json.loads on bad text *)
| KeyError
| IndexError
| AttributeError         (* .get on a JSON value that is not a dict *)
| SocketError.           (* websocket.accept / send_json failing *)

Definition is_Exception (e : exn) : bool :=
  match e with CancelledError => false | _ => true end.

Inductive res (A : Type) := Ok (a : A) | Err (e : exn).
Arguments Ok {A} a.
Arguments Err {A} e.

(** JSON values, as produced by [json.loads]. *)
Inductive json :=
| JNull
| JBool (b : bool)
| JNum (z : Z)
| JStr (s : string)
| JArr (l : list json)
| JObj (fields : list (string * json)).

(** A Python dict with string keys, in insertion order. *)
Abbreviation dict := (list (string * json)).

(** [d.get(k)]: the last binding wins, as for [json.loads] of an object
    with a repeated key. *)
Definition dict_get (k : string) (d : dict) : option json :=
  fold_left (fun acc kv => if String.eqb k kv.1 then Some kv.2 else acc) d None.

(** [{**d, k: v}]: an existing key keeps its position, a new one is appended. *)
Fixpoint dict_set (k : string) (v : json) (d : dict) : dict :=
  match d with
  | [] => [(k, v)]
  | (k', v') :: d' =>
      if String.eqb k k' then (k', v) :: d' else (k', v') :: dict_set k v d'
  end.

(** Text stored in Redis for a JSON document: either the output of
    [json.dumps] or text that [json.loads] rejects. *)
Inductive payload := Dumped (j : json) | Garbage (raw : string).

Definition json_dumps (j : json) : payload := Dumped j.

Definition json_loads (p : payload) : res json :=
  match p with Dumped j => Ok j | Garbage _ => Err ValueError end.

(** [int(s)] on decimal text, and [str(z)].  [int] also accepts a leading
    [+], surrounding whitespace and [_] separators; these are not modelled. *)
Definition py_int (s : string) : option Z :=
  option_map Z.of_int (NilZero.int_of_string s).

Definition Z_to_string (z : Z) : string := NilZero.string_of_int (Z.to_int z).

(** [s.split(sep)] *)
Fixpoint py_split_acc (sep : ascii) (s : string) (cur : string) : list string :=
  match s with
  | EmptyString => [cur]
  | String c s' =>
      if Ascii.eqb c sep then cur :: py_split_acc sep s' EmptyString
      else py_split_acc sep s' (cur ++ String c EmptyString)%string
  end.

Definition py_split (sep : ascii) (s : string) : list string :=
  py_split_acc sep s EmptyString.

(** A websocket handle; which handles are alive is an oracle of each
    operation that writes to sockets. *)
Inductive websocket := WebSocket (handle : nat).

#[global] Instance websocket_eq_dec : EqDecision websocket.
Proof. solve_decision. Defined.

(* ------------------------------------------------------------------ *)
(** ** [WebSocketManager] (manager.py) *)

Module WebSocketManager.

Record state := mkState {
  active_connections : gmap string websocket;
  session_connections : gmap Z (list string);
  user_connections : gmap Z (list string);
  (** socket writes performed so far: connection id and message *)
  sent : list (string * dict)
}.

Definition init : state := mkState ∅ ∅ ∅ [].

(** Python truthiness of the optional [user_id: int = None]. *)
Definition truthy_user (u : option Z) : option Z :=
  match u with Some z => if Z.eqb z 0 then None else Some z | None => None end.

Definition mem (x : string) (l : list string) : bool :=
  existsb (String.eqb x) l.

(** [list.remove(x)]: drop the first occurrence. *)
Fixpoint remove_first (x : string) (l : list string) : list string :=
  match l with
  | [] => []
  | y :: l' => if String.eqb x y then l' else y :: remove_first x l'
  end.

(** [if k not in d: d[k] = []; d[k].append(x)] *)
Definition index_add (k : Z) (x : string) (d : gmap Z (list string))
  : gmap Z (list string) :=
  match d !! k with
  | Some l => <[k := l ++ [x]]> d
  | None => <[k := [x]]> d
  end.

(** [if k in d: (if x in d[k]: d[k].remove(x)); if not d[k]: del d[k]] *)
Definition index_remove (k : Z) (x : string) (d : gmap Z (list string))
  : gmap Z (list string) :=
  match d !! k with
  | Some l =>
      let l' := if mem x l then remove_first x l else l in
      match l' with [] => delete k d | _ => <[k := l']> d end
  | None => d
  end.

(** [connect]: [accept_ok] is the outcome of [await websocket.accept()]. *)
Definition connect (accept_ok : bool) (ws : websocket) (connection_id : string)
    (session_id : Z) (user_id : option Z) (st : state) : res unit * state :=
  if negb accept_ok then (Err SocketError, st) else
  let act := <[connection_id := ws]> (active_connections st) in
  let sess := index_add session_id connection_id (session_connections st) in
  let users :=
    match truthy_user user_id with
    | Some u => index_add u connection_id (user_connections st)
    | None => user_connections st
    end in
  (Ok tt, mkState act sess users (sent st)).

Definition disconnect (connection_id : string) (session_id : Z)
    (user_id : option Z) (st : state) : state :=
  let act := delete connection_id (active_connections st) in
  let sess := index_remove session_id connection_id (session_connections st) in
  let users :=
    match truthy_user user_id with
    | Some u => index_remove u connection_id (user_connections st)
    | None => user_connections st
    end in
  mkState act sess users (sent st).

(** The iteration pass of [send_to_session] / [send_to_user] over the ids of
    one index entry.  Returns the number of successful [send_json] calls,
    the ids collected in [connections_to_remove], and the writes done.
    [log_type] is whether the debug line evaluates [message['type']]
    (it does in [send_to_session], after [sent_count += 1]). *)
Fixpoint send_pass (ok : websocket -> bool) (log_type : bool) (message : dict)
    (act : gmap string websocket) (ids : list string)
    : nat * list string * list (string * dict) :=
  match ids with
  | [] => (0%nat, [], [])
  | cid :: ids' =>
      let '(n, rm, ws) := send_pass ok log_type message act ids' in
      match act !! cid with
      | None => (n, rm, ws)
      | Some sock =>
          if ok sock then
            if log_type && (if dict_get "type" message then false else true)
            then (S n, cid :: rm, (cid, message) :: ws)   (* KeyError after the write *)
            else (S n, rm, (cid, message) :: ws)
          else (n, cid :: rm, ws)
      end
  end.

Definition send_to_session (ok : websocket -> bool) (session_id : Z)
    (message : dict) (st : state) : res nat * state :=
  match session_connections st !! session_id with
  | None => (Ok 0%nat, st)
  | Some ids =>
      let '(n, rm, ws) := send_pass ok true message (active_connections st) ids in
      let st1 := mkState (active_connections st) (session_connections st)
                   (user_connections st) (sent st ++ ws) in
      (Ok n, fold_left (fun s cid => disconnect cid session_id None s) rm st1)
  end.

(** [send_to_user]: the collected failures are not cleaned up (the loop body
    is [pass]). *)
Definition send_to_user (ok : websocket -> bool) (user_id : Z)
    (message : dict) (st : state) : res nat * state :=
  match user_connections st !! user_id with
  | None => (Ok 0%nat, st)
  | Some ids =>
      let '(n, _, ws) := send_pass ok false message (active_connections st) ids in
      (Ok n, mkState (active_connections st) (session_connections st)
               (user_connections st) (sent st ++ ws))
  end.

(** Public operations, for reasoning about arbitrary call sequences. *)
Inductive op :=
| OpConnect (accept_ok : bool) (ws : websocket) (cid : string) (sid : Z) (uid : option Z)
| OpDisconnect (cid : string) (sid : Z) (uid : option Z)
| OpSendSession (ok : websocket -> bool) (sid : Z) (message : dict)
| OpSendUser (ok : websocket -> bool) (uid : Z) (message : dict).

Definition step (st : state) (o : op) : state :=
  match o with
  | OpConnect a ws cid sid uid => snd (connect a ws cid sid uid st)
  | OpDisconnect cid sid uid => disconnect cid sid uid st
  | OpSendSession ok sid m => snd (send_to_session ok sid m st)
  | OpSendUser ok uid m => snd (send_to_user ok uid m st)
  end.

Definition run_ops (st : state) (ops : list op) : state := fold_left step ops st.

(** No secondary index maps a key to an empty list. *)
Definition no_empty_lists (st : state) : Prop :=
  (forall k l, session_connections st !! k = Some l -> l <> []) /\
  (forall k l, user_connections st !! k = Some l -> l <> []).

(** [get_session_connection_count]: [len(d.get(session_id, []))] *)
Definition get_session_connection_count (session_id : Z) (st : state) : nat :=
  length (default [] (session_connections st !! session_id)).

(** [get_total_connections]: [len(self.active_connections)] *)
Definition get_total_connections (st : state) : nat :=
  size (active_connections st).

(** Every connection of [active_connections] is listed under some session. *)
Definition active_indexed (st : state) : Prop :=
  forall c, is_Some (active_connections st !! c) ->
  exists k l, session_connections st !! k = Some l /\ In c l.

End WebSocketManager.

(* ------------------------------------------------------------------ *)
(** ** [RedisWebSocketManager] (redis_manager.py) *)

Module RedisWebSocketManager.

(** A Redis value: a string or a hash (fields in insertion order). *)
Inductive rval := RStr (s : string) | RHash (h : list (string * payload)).

Abbreviation store := (gmap string rval).

(** The commands the manager sends; the transport oracle decides which
    reach the server (the others raise [ConnectionError]). *)
Inductive cmd :=
| CGet (k : string)
| CHGetAll (k : string)
| CHLen (k : string)
| CHDel (k f : string)
| CDelete (k : string)
| CDecr (k : string)
| CPublish (channel : string) (message : payload).

Inductive task := Task (done : bool).

Record world := mkWorld {
  redis : store;
  published : list (string * payload);   (* messages published, in order *)
  local_connections : gmap string websocket;
  server_id : string;
  initialized : bool;
  pubsub : bool;                          (* [self.pubsub is not None] *)
  listener_task : option task;
  pubsub_closes : nat;                    (* calls of [pubsub.close()] *)
  writes : list (string * json);          (* socket writes: connection id, message *)
  expiries : list (string * Z)            (* expiry times set: key, seconds *)
}.

Definition with_redis (w : world) (st : store) : world :=
  mkWorld st (published w) (local_connections w) (server_id w) (initialized w)
    (pubsub w) (listener_task w) (pubsub_closes w) (writes w) (expiries w).
Definition with_published (w : world) (p : list (string * payload)) : world :=
  mkWorld (redis w) p (local_connections w) (server_id w) (initialized w)
    (pubsub w) (listener_task w) (pubsub_closes w) (writes w) (expiries w).
Definition with_local (w : world) (l : gmap string websocket) : world :=
  mkWorld (redis w) (published w) l (server_id w) (initialized w)
    (pubsub w) (listener_task w) (pubsub_closes w) (writes w) (expiries w).
Definition with_initialized (w : world) (b : bool) : world :=
  mkWorld (redis w) (published w) (local_connections w) (server_id w) b
    (pubsub w) (listener_task w) (pubsub_closes w) (writes w) (expiries w).
Definition with_task (w : world) (t : option task) : world :=
  mkWorld (redis w) (published w) (local_connections w) (server_id w) (initialized w)
    (pubsub w) t (pubsub_closes w) (writes w) (expiries w).
Definition with_closes (w : world) (n : nat) : world :=
  mkWorld (redis w) (published w) (local_connections w) (server_id w) (initialized w)
    (pubsub w) (listener_task w) n (writes w) (expiries w).
Definition with_writes (w : world) (l : list (string * json)) : world :=
  mkWorld (redis w) (published w) (local_connections w) (server_id w) (initialized w)
    (pubsub w) (listener_task w) (pubsub_closes w) l (expiries w).
Definition with_expiries (w : world) (l : list (string * Z)) : world :=
  mkWorld (redis w) (published w) (local_connections w) (server_id w) (initialized w)
    (pubsub w) (listener_task w) (pubsub_closes w) (writes w) l.

(** *** Redis command semantics *)

Definition hfields (k : string) (st : store) : list (string * payload) :=
  match st !! k with Some (RHash h) => h | _ => [] end.

Definition r_get (k : string) (st : store) : res (option string * store) :=
  match st !! k with
  | None => Ok (None, st)
  | Some (RStr s) => Ok (Some s, st)
  | Some (RHash _) => Err ResponseError
  end.

Definition r_hgetall (k : string) (st : store) : res (list (string * payload) * store) :=
  match st !! k with
  | None => Ok ([], st)
  | Some (RHash h) => Ok (h, st)
  | Some (RStr _) => Err ResponseError
  end.

Definition r_hlen (k : string) (st : store) : res (nat * store) :=
  match st !! k with
  | None => Ok (0%nat, st)
  | Some (RHash h) => Ok (length h, st)
  | Some (RStr _) => Err ResponseError
  end.

(** HDEL; a hash whose last field is deleted disappears. *)
Definition r_hdel (k f : string) (st : store) : res (nat * store) :=
  match st !! k with
  | None => Ok (0%nat, st)
  | Some (RHash h) =>
      let h' := List.filter (fun fv => negb (String.eqb fv.1 f)) h in
      Ok ((length h - length h')%nat,
          match h' with [] => delete k st | _ => <[k := RHash h']> st end)
  | Some (RStr _) => Err ResponseError
  end.

Definition r_delete (k : string) (st : store) : res (unit * store) :=
  Ok (tt, delete k st).

(** Redis reads a string as an integer only when it is the canonical
    decimal text of a signed 64-bit value (no sign [+], no leading zero,
    no [-0], no blank): the text that [Z_to_string] gives back. *)
Definition INT64_MIN : Z := - 2 ^ 63.
Definition INT64_MAX : Z := 2 ^ 63 - 1.

Definition redis_int (s : string) : option Z :=
  match py_int s with
  | Some z =>
      if String.eqb (Z_to_string z) s && (INT64_MIN <=? z) && (z <=? INT64_MAX)
      then Some z else None
  | None => None
  end.

(** INCRBY [delta] on the text [s]: an error (the [None]) when [s] is not
    an integer for Redis or when the result would overflow. *)
Definition redis_incrby (delta : Z) (s : string) : option Z :=
  match redis_int s with
  | Some z => if (INT64_MIN <=? z + delta) && (z + delta <=? INT64_MAX)
              then Some (z + delta) else None
  | None => None
  end.

(** DECR: a missing key counts as 0. *)
Definition r_decr (k : string) (st : store) : res (Z * store) :=
  match st !! k with
  | None => Ok (-1, <[k := RStr (Z_to_string (-1))]> st)
  | Some (RStr s) =>
      match redis_incrby (-1) s with
      | Some z => Ok (z, <[k := RStr (Z_to_string z)]> st)
      | None => Err ResponseError
      end
  | Some (RHash _) => Err ResponseError
  end.

(** *** The state and exception monad of the manager's coroutines *)

Definition M (A : Type) := world -> res A * world.

Definition ret {A} (a : A) : M A := fun w => (Ok a, w).
Definition raise {A} (e : exn) : M A := fun w => (Err e, w).
Definition bind {A B} (m : M A) (f : A -> M B) : M B := fun w =>
  match m w with
  | (Ok a, w') => f a w'
  | (Err e, w') => (Err e, w')
  end.
Definition gets {A} (f : world -> A) : M A := fun w => (Ok (f w), w).
Definition modify (f : world -> world) : M unit := fun w => (Ok tt, f w).
Definition lift {A} (r : res A) : M A := fun w => (r, w).

Notation "'let!' x ':=' m 'in' k" := (bind m (fun x => k))
  (at level 200, x name, m at level 200, k at level 200).

(** [try: m except Exception as e: h(e)] *)
Definition try_except {A} (m : M A) (h : exn -> M A) : M A := fun w =>
  match m w with
  | (Err e, w') => if is_Exception e then h e w' else (Err e, w')
  | r => r
  end.

(** [try: m except asyncio.CancelledError: pass] *)
Definition try_except_cancelled (m : M unit) : M unit := fun w =>
  match m w with
  | (Err CancelledError, w') => (Ok tt, w')
  | r => r
  end.

(** [int(text)] *)
Definition int_of (s : string) : M Z :=
  match py_int s with Some z => ret z | None => raise ValueError end.

(** [value.get(k)] on a decoded JSON value: only dicts have [.get]. *)
Definition json_get (k : string) (v : json) : M (option json) :=
  match v with JObj d => ret (dict_get k d) | _ => raise AttributeError end.

(** [l[i]] *)
Definition nth_py {A} (l : list A) (i : nat) : M A :=
  match nth_error l i with Some x => ret x | None => raise IndexError end.

(** Keys and channels of the shared store. *)
Definition key_session_connections (session_id : Z) : string :=
  ("session:" ++ Z_to_string session_id ++ ":connections")%string.
Definition key_connection_session (connection_id : string) : string :=
  ("connection:" ++ connection_id ++ ":session")%string.
Definition key_session_count (session_id : Z) : string :=
  ("session:" ++ Z_to_string session_id ++ ":connection_count")%string.
Definition channel_of (session_id : Z) : string :=
  ("session:" ++ Z_to_string session_id)%string.

Section Transport.

(** [net c]: the command [c] reaches Redis; [sock_ok ws]: writes to [ws]
    succeed. *)
Variable net : cmd -> bool.
Variable sock_ok : websocket -> bool.

Definition call {A} (c : cmd) (f : store -> res (A * store)) : M A := fun w =>
  if net c then
    match f (redis w) with
    | Ok (a, st') => (Ok a, with_redis w st')
    | Err e => (Err e, w)
    end
  else (Err ConnectionError, w).

Definition GET (k : string) : M (option string) := call (CGet k) (r_get k).
Definition HGETALL (k : string) : M (list (string * payload)) := call (CHGetAll k) (r_hgetall k).
Definition HLEN (k : string) : M nat := call (CHLen k) (r_hlen k).
Definition HDEL (k f : string) : M nat := call (CHDel k f) (r_hdel k f).
Definition DELETE (k : string) : M unit := call (CDelete k) (r_delete k).
Definition DECR (k : string) : M Z := call (CDecr k) (r_decr k).

(** PUBLISH (the subscriber count it returns is only logged). *)
Definition PUBLISH (channel : string) (message : payload) : M unit := fun w =>
  if net (CPublish channel message)
  then (Ok tt, with_published w (published w ++ [(channel, message)]))
  else (Err ConnectionError, w).

(** [await websocket.send_json(message)] *)
Definition send_json (connection_id : string) (ws : websocket) (message : json) : M unit :=
  fun w =>
    if sock_ok ws then (Ok tt, with_writes w (writes w ++ [(connection_id, message)]))
    else (Err SocketError, w).

(** *** Methods of [RedisWebSocketManager] *)

Definition disconnect (connection_id : string) : M unit :=
  let! _ := modify (fun w => with_local w (delete connection_id (local_connections w))) in
  let! init := gets initialized in
  if negb init then ret tt else
  try_except
    (let! session_id_bytes := GET (key_connection_session connection_id) in
     match session_id_bytes with
     | None | Some EmptyString => ret tt          (* [if session_id_bytes:] *)
     | Some s =>
         let! session_id := int_of s in
         let! _ := HDEL (key_session_connections session_id) connection_id in
         let! _ := DELETE (key_connection_session connection_id) in
         let! _ := DECR (key_session_count session_id) in
         let! _ := HLEN (key_session_connections session_id) in   (* logged *)
         ret tt
     end)
    (fun _ => ret tt).

Fixpoint disconnect_each (ids : list string) : M unit :=
  match ids with
  | [] => ret tt
  | c :: ids' => let! _ := disconnect c in disconnect_each ids'
  end.

(** The body of the loop of [_send_to_local_connections] for one hash
    entry; the accumulator is [(sent_count, connections_to_remove)]. *)
Definition local_entry (message : json) (acc : nat * list string)
    (entry : string * payload) : M (nat * list string) :=
  let '(sent_count, to_remove) := acc in
  let '(connection_id, connection_info_str) := entry in
  try_except
    (let! connection_info := lift (json_loads connection_info_str) in
     let! owner := json_get "server_id" connection_info in
     let! me := gets server_id in
     if (match owner with Some (JStr s) => String.eqb s me | _ => false end) then
       let! loc := gets local_connections in
       match loc !! connection_id with
       | Some ws =>
           let! _ := send_json connection_id ws message in
           ret (S sent_count, to_remove)
       | None => ret (sent_count, to_remove ++ [connection_id])
       end
     else ret (sent_count, to_remove))
    (fun _ => ret (sent_count, to_remove ++ [connection_id])).

Fixpoint local_loop (message : json) (acc : nat * list string)
    (entries : list (string * payload)) : M (nat * list string) :=
  match entries with
  | [] => ret acc
  | e :: es => let! acc' := local_entry message acc e in local_loop message acc' es
  end.

(** [_send_to_local_connections] *)
Definition send_to_local_connections (session_id : Z) (message : json) : M nat :=
  try_except
    (let! connections := HGETALL (key_session_connections session_id) in
     let! r := local_loop message (0%nat, []) connections in
     let! _ := disconnect_each r.2 in
     ret r.1)
    (fun _ => ret 0%nat).

Definition get_session_connection_count (session_id : Z) : M nat :=
  try_except (HLEN (key_session_connections session_id)) (fun _ => ret 0%nat).

Definition send_to_session (session_id : Z) (message : dict) : M nat :=
  let! init := gets initialized in
  if negb init then ret 0%nat else
  try_except
    (let! me := gets server_id in
     let message_with_server := dict_set "server_id" (JStr me) message in
     let channel := channel_of session_id in
     let! _ := PUBLISH channel (json_dumps (JObj message_with_server)) in
     let! local_count := send_to_local_connections session_id (JObj message) in
     let! total_count := get_session_connection_count session_id in
     ret total_count)
    (fun _ => ret 0%nat).

(** Values of the diagnostic dict of [get_session_info]. *)
Inductive pyval := PInt (z : Z) | PStr (s : string) | PList (l : list string).

Definition get_session_info (session_id : Z) : M (list (string * pyval)) :=
  try_except
    (let! connections := HGETALL (key_session_connections session_id) in
     let! count_bytes := GET (key_session_count session_id) in
     (* [(await get(...)) or 0], then [int(...)] *)
     let! connection_count :=
       match count_bytes with None | Some EmptyString => ret 0 | Some s => int_of s end in
     let! loc := gets local_connections in
     let! me := gets server_id in
     ret [("session_id", PInt session_id);
          ("total_connections", PInt (Z.of_nat (length connections)));
          ("connection_count", PInt connection_count);
          ("local_connections", PList (map_to_list loc).*1);
          ("server_id", PStr me);
          ("redis_connections", PList connections.*1)]%string)
    (fun _ => ret []).

(** A message delivered by [pubsub.listen()]. *)
Record ps_message := PsMessage {
  ps_type : string;
  ps_channel : string;
  ps_data : payload
}.

(** One iteration of the [async for] loop of [_redis_listener]. *)
Definition process_message (message : ps_message) : M unit :=
  if String.eqb (ps_type message) "pmessage" then
    try_except
      (let channel := ps_channel message in
       let! field := nth_py (py_split ":" channel) 1 in
       let! session_id := int_of field in
       let! message_data := lift (json_loads (ps_data message)) in
       let! _ := json_get "server_id" message_data in   (* the log line *)
       let! _ := send_to_local_connections session_id message_data in
       ret tt)
      (fun _ => ret tt)
  else ret tt.

(** The loop over a finite prefix of the subscription stream. *)
Fixpoint listen (messages : list ps_message) : M unit :=
  match messages with
  | [] => ret tt
  | m :: ms => let! _ := process_message m in listen ms
  end.

(** The outer [try ... except Exception ... finally] of [_redis_listener]. *)
Definition listener_guard (body : M unit) : M unit :=
  try_except body (fun _ => ret tt).

Definition redis_listener (messages : list ps_message) : M unit :=
  listener_guard
    (let! p := gets pubsub in
     if p then listen messages else ret tt).

(** [cleanup].  [cancelled_body] is how the listener coroutine ends once
    cancelled (before its own handlers); [close_result] is the outcome of
    [pubsub.close()]. *)
Definition cleanup (cancelled_body : res unit) (close_result : res unit) : M unit :=
  let! t := gets listener_task in
  let! _ :=
    match t with
    | Some (Task false) =>
        let! _ := modify (fun w => with_task w (Some (Task true))) in    (* cancel() *)
        try_except_cancelled (listener_guard (lift cancelled_body))      (* await *)
    | _ => ret tt
    end in
  let! p := gets pubsub in
  let! _ :=
    if p then
      try_except
        (let! _ := modify (fun w => with_closes w (S (pubsub_closes w))) in
         lift close_result)
        (fun _ => ret tt)
    else ret tt in
  modify (fun w => with_initialized w false).

End Transport.

(** *** [connect] and the commands it sends *)

(** The commands [connect] sends besides HLEN.  The expiry times that
    EXPIRE and the [ex=3600] of SET give a key are recorded in the world's
    [expiries] (key and seconds, in order); no time passes in the model, so
    no key actually expires. *)
Inductive reg_cmd :=
| CHSet (k f : string) (v : payload)
| CExpire (k : string)
| CSet (k v : string)
| CIncr (k : string).

(** HSET of one field: an existing field keeps its position. *)
Fixpoint hash_set (f : string) (v : payload) (h : list (string * payload))
    : list (string * payload) :=
  match h with
  | [] => [(f, v)]
  | (f', v') :: h' => if String.eqb f f' then (f', v) :: h' else (f', v') :: hash_set f v h'
  end.

Definition r_hset (k f : string) (v : payload) (st : store) : res (nat * store) :=
  match st !! k with
  | None => Ok (1%nat, <[k := RHash [(f, v)]]> st)
  | Some (RHash h) =>
      Ok ((if existsb (fun fv => String.eqb fv.1 f) h then 0 else 1)%nat,
          <[k := RHash (hash_set f v h)]> st)
  | Some (RStr _) => Err ResponseError
  end.

(** EXPIRE: true, and a timeout is set, when the key exists; the values
    of the store do not change (the timeout is recorded by [EXPIRE]). *)
Definition r_expire (k : string) (st : store) : res (bool * store) :=
  Ok (match st !! k with Some _ => true | None => false end, st).

Definition r_set (k v : string) (st : store) : res (unit * store) :=
  Ok (tt, <[k := RStr v]> st).

(** INCR: a missing key counts as 0. *)
Definition r_incr (k : string) (st : store) : res (Z * store) :=
  match st !! k with
  | None => Ok (1, <[k := RStr (Z_to_string 1)]> st)
  | Some (RStr s) =>
      match redis_incrby 1 s with
      | Some z => Ok (z, <[k := RStr (Z_to_string z)]> st)
      | None => Err ResponseError
      end
  | Some (RHash _) => Err ResponseError
  end.

(** The dict [connection_info] built by [connect]. *)
Definition connection_info (server_id : string) (user_id : option Z) (connected_at : json)
    : json :=
  JObj [("server_id", JStr server_id);
        ("user_id", match user_id with Some u => JNum u | None => JNull end);
        ("connected_at", connected_at);
        ("status", JStr "active")]%string.

Section Registration.

(** [net] decides the commands of the other methods (here HLEN),
    [reg_net] those of the list above. *)
Variable net : cmd -> bool.
Variable reg_net : reg_cmd -> bool.

Definition reg_call {A} (c : reg_cmd) (f : store -> res (A * store)) : M A := fun w =>
  if reg_net c then
    match f (redis w) with
    | Ok (a, st') => (Ok a, with_redis w st')
    | Err e => (Err e, w)
    end
  else (Err ConnectionError, w).

Definition HSET (k f : string) (v : payload) : M nat := reg_call (CHSet k f v) (r_hset k f v).
Definition set_expiry (k : string) (seconds : Z) : M unit :=
  modify (fun w => with_expiries w (expiries w ++ [(k, seconds)])).
Definition EXPIRE (k : string) (seconds : Z) : M bool :=
  let! b := reg_call (CExpire k) (r_expire k) in
  let! _ := (if b then set_expiry k seconds else ret tt) in
  ret b.
(** [SET k v ex=seconds] *)
Definition SET (k v : string) (ex : Z) : M unit :=
  let! _ := reg_call (CSet k v) (r_set k v) in
  set_expiry k ex.
Definition INCR (k : string) : M Z := reg_call (CIncr k) (r_incr k).

(** [connect].  [accept_ok]: [websocket.accept()] succeeds;
    [connected_at]: the JSON value of [asyncio.get_event_loop().time()]
    (a float, never read back by the code). *)
Definition connect (accept_ok : bool) (websocket : websocket) (connection_id : string)
    (session_id : Z) (user_id : option Z) (connected_at : json) : M unit :=
  if negb accept_ok then raise SocketError else
  let! _ := modify (fun w =>
              with_local w (<[connection_id := websocket]> (local_connections w))) in
  let! me := gets server_id in
  try_except
    (let! _ := HSET (key_session_connections session_id) connection_id
                    (json_dumps (connection_info me user_id connected_at)) in
     let! _ := EXPIRE (key_session_connections session_id) 3600 in
     let! _ := SET (key_connection_session connection_id) (Z_to_string session_id) 3600 in
     let! _ := INCR (key_session_count session_id) in
     let! _ := EXPIRE (key_session_count session_id) 3600 in
     let! _ := HLEN net (key_session_connections session_id) in   (* logged *)
     ret tt)
    (fun _ => ret tt).

End Registration.

End RedisWebSocketManager.

(* ================================================================== *)
(** * Properties of [WebSocketManager] *)

Module WebSocketManagerFacts.
Import WebSocketManager.

(** Number of occurrences of a connection id in a list. *)
Definition occ (c : string) (l : list string) : nat :=
  length (List.filter (String.eqb c) l).

Definition sess_list (st : state) (sid : Z) : list string :=
  default [] (session_connections st !! sid).

(** A write to [cid] succeeds in the pass. *)
Definition live (ok : websocket -> bool) (act : gmap string websocket) (cid : string) : bool :=
  match act !! cid with Some s => ok s | None => false end.

Create HintDb wsm.

Lemma eqb_refl_s (s : string) : String.eqb s s = true.
Proof. apply String.eqb_refl. Qed.

Lemma occ_cons (c y : string) (l : list string) :
  occ c (y :: l) = ((if String.eqb c y then 1 else 0) + occ c l)%nat.
Proof. unfold occ; simpl; destruct (String.eqb c y); reflexivity. Qed.

Lemma occ_zero_notin (c : string) (l : list string) : occ c l = 0%nat -> ~ In c l.
Proof.
  induction l as [|y l IH]; [intros _ []|].
  rewrite occ_cons. intros H Hin.
  destruct (String.eqb c y) eqn:Hcy; simpl in H; [discriminate|].
  destruct Hin as [->|Hin]; [rewrite eqb_refl_s in Hcy; discriminate | exact (IH H Hin)].
Qed.

Lemma occ_notin (c : string) (l : list string) : mem c l = false -> occ c l = 0%nat.
Proof.
  induction l as [|y l IH]; simpl; [reflexivity|].
  rewrite occ_cons. intros H. apply orb_false_iff in H as [H1 H2].
  rewrite H1. simpl. auto.
Qed.

Lemma occ_remove_first (c c' : string) (l : list string) :
  occ c (remove_first c' l) = (occ c l - (if String.eqb c c' then 1 else 0))%nat.
Proof.
  induction l as [|y l IH]; simpl.
  - destruct (String.eqb c c'); reflexivity.
  - destruct (String.eqb c' y) eqn:Hy.
    + apply String.eqb_eq in Hy; subst y. rewrite occ_cons.
      destruct (String.eqb c c'); lia.
    + rewrite !occ_cons, IH.
      destruct (String.eqb c y) eqn:Hcy, (String.eqb c c') eqn:Hcc; try lia.
      apply String.eqb_eq in Hcy, Hcc; subst. rewrite eqb_refl_s in Hy. discriminate.
Qed.

(** Effect of [disconnect] on the occurrences of an id in a session entry. *)
Lemma occ_disconnect (c c' : string) (sid : Z) (u : option Z) (st : state) :
  occ c (sess_list (disconnect c' sid u st) sid)
  = (occ c (sess_list st sid) - (if String.eqb c c' then 1 else 0))%nat.
Proof.
  unfold sess_list, disconnect, index_remove; simpl.
  destruct (session_connections st !! sid) as [l|] eqn:Hl; simpl.
  - assert (Hl' : occ c (if mem c' l then remove_first c' l else l)
                  = (occ c l - (if String.eqb c c' then 1 else 0))%nat).
    { destruct (mem c' l) eqn:Hm; [apply occ_remove_first|].
      destruct (String.eqb c c') eqn:Hcc; [|lia].
      apply String.eqb_eq in Hcc; subst. rewrite occ_notin; auto. }
    destruct (if mem c' l then remove_first c' l else l) as [|x xs] eqn:Hr.
    + rewrite lookup_delete_eq. simpl. rewrite <- Hl'. reflexivity.
    + rewrite lookup_insert_eq. simpl. exact Hl'.
  - rewrite Hl. unfold occ. simpl. destruct (String.eqb c c'); reflexivity.
Qed.

Definition disconnect_all (sid : Z) (rm : list string) (st : state) : state :=
  fold_left (fun s cid => disconnect cid sid None s) rm st.

Lemma occ_disconnect_all (c : string) (sid : Z) (rm : list string) (st : state) :
  occ c (sess_list (disconnect_all sid rm st) sid) = (occ c (sess_list st sid) - occ c rm)%nat.
Proof.
  unfold disconnect_all; revert st; induction rm as [|c' rm IH]; intros st; simpl.
  - unfold occ at 3. simpl. lia.
  - rewrite IH, occ_disconnect, occ_cons. lia.
Qed.

Lemma active_disconnect_all (c : string) (sid : Z) (rm : list string) (st : state) :
  (In c rm \/ active_connections st !! c = None) ->
  active_connections (disconnect_all sid rm st) !! c = None.
Proof.
  unfold disconnect_all; revert st; induction rm as [|c' rm IH]; intros st H; simpl.
  - destruct H as [[]|H]; exact H.
  - apply IH. destruct H as [[->|H]|H]; [right|left; exact H|right].
    + simpl. apply lookup_delete_eq.
    + simpl. destruct (decide (c' = c)) as [->|Hne];
        [apply lookup_delete_eq | rewrite lookup_delete_ne; auto].
Qed.

Lemma users_disconnect_all (sid : Z) (rm : list string) (st : state) :
  user_connections (disconnect_all sid rm st) = user_connections st.
Proof.
  unfold disconnect_all; revert st; induction rm as [|c' rm IH]; intros st; simpl; [reflexivity|].
  rewrite IH. reflexivity.
Qed.

Lemma sent_disconnect_all (sid : Z) (rm : list string) (st : state) :
  sent (disconnect_all sid rm st) = sent st.
Proof.
  unfold disconnect_all; revert st; induction rm as [|c' rm IH]; intros st; simpl; [reflexivity|].
  rewrite IH. reflexivity.
Qed.

Lemma send_pass_writes (ok : websocket -> bool) (lt : bool) (m : dict)
    (act : gmap string websocket) (ids : list string) :
  let '(n, _, ws) := send_pass ok lt m act ids in
  ws = map (fun c => (c, m)) (List.filter (live ok act) ids) /\ n = length ws.
Proof.
  induction ids as [|c ids IH]; simpl; [auto|].
  destruct (send_pass ok lt m act ids) as [[n rm] ws].
  destruct IH as [-> ->].
  assert (Hl : live ok act c = match act !! c with Some s => ok s | None => false end)
    by reflexivity.
  rewrite Hl. destruct (act !! c) as [s|]; [|auto].
  destruct (ok s); [|auto].
  destruct (lt && _); simpl; auto.
Qed.

Lemma send_pass_rm_occ (ok : websocket -> bool) (lt : bool) (m : dict)
    (act : gmap string websocket) (ids : list string) (c : string) (s : websocket) :
  act !! c = Some s -> ok s = false ->
  let '(_, rm, _) := send_pass ok lt m act ids in occ c rm = occ c ids.
Proof.
  intros Hc Hs.
  induction ids as [|y ids IH]; simpl; [reflexivity|].
  destruct (send_pass ok lt m act ids) as [[n rm] ws].
  rewrite occ_cons.
  destruct (String.eqb c y) eqn:Hcy.
  - apply String.eqb_eq in Hcy; subst y. rewrite Hc, Hs, occ_cons, eqb_refl_s. lia.
  - destruct (act !! y) as [s'|]; [|lia].
    destruct (ok s'); [destruct (lt && _)|]; rewrite ?occ_cons, ?Hcy; lia.
Qed.

(** ** Secondary indexes never hold empty lists *)

Definition nonempty_values (d : gmap Z (list string)) : Prop :=
  forall k l, d !! k = Some l -> l <> [].

Lemma index_add_nonempty (k : Z) (x : string) (d : gmap Z (list string)) :
  nonempty_values d -> nonempty_values (index_add k x d).
Proof.
  unfold index_add, nonempty_values; intros H k' l'.
  destruct (d !! k) as [l|];
    (destruct (decide (k = k')) as [<-|Hne];
     [rewrite lookup_insert_eq; intros [= <-] Habs;
      apply (f_equal length) in Habs; rewrite ?length_app in Habs; simpl in Habs; lia
     | rewrite lookup_insert_ne by exact Hne; apply H]).
Qed.

Lemma index_remove_nonempty (k : Z) (x : string) (d : gmap Z (list string)) :
  nonempty_values d -> nonempty_values (index_remove k x d).
Proof.
  unfold index_remove, nonempty_values; intros H k' l'.
  destruct (d !! k) as [l|]; [|apply H].
  destruct (if mem x l then remove_first x l else l) as [|y ys].
  - destruct (decide (k = k')) as [<-|Hne];
      [rewrite lookup_delete_eq; discriminate
      | rewrite lookup_delete_ne by exact Hne; apply H].
  - destruct (decide (k = k')) as [<-|Hne];
      [rewrite lookup_insert_eq; intros [= <-]; discriminate
      | rewrite lookup_insert_ne by exact Hne; apply H].
Qed.

Lemma disconnect_no_empty (cid : string) (sid : Z) (u : option Z) (st : state) :
  no_empty_lists st -> no_empty_lists (disconnect cid sid u st).
Proof.
  intros [Hs Hu]; split; simpl; [exact (index_remove_nonempty _ _ _ Hs)|].
  destruct (truthy_user u); [exact (index_remove_nonempty _ _ _ Hu) | exact Hu].
Qed.

#[local] Hint Resolve disconnect_no_empty : wsm.

Lemma disconnect_all_no_empty (sid : Z) (rm : list string) (st : state) :
  no_empty_lists st -> no_empty_lists (disconnect_all sid rm st).
Proof.
  unfold disconnect_all; revert st; induction rm as [|c rm IH]; simpl; auto with wsm.
Qed.

Lemma step_no_empty (st : state) (o : op) :
  no_empty_lists st -> no_empty_lists (step st o).
Proof.
  intros Hinv; destruct o as [a ws cid sid uid|cid sid uid|ok sid m|ok uid m]; simpl.
  - unfold connect. destruct a; simpl; [|exact Hinv].
    destruct Hinv as [Hs Hu]; split; simpl; [exact (index_add_nonempty _ _ _ Hs)|].
    destruct (truthy_user uid); [exact (index_add_nonempty _ _ _ Hu) | exact Hu].
  - auto with wsm.
  - unfold send_to_session.
    destruct (session_connections st !! sid) as [ids|]; [|exact Hinv].
    destruct (send_pass ok true m (active_connections st) ids) as [[n rm] ws].
    apply (disconnect_all_no_empty sid rm). exact Hinv.
  - unfold send_to_user.
    destruct (user_connections st !! uid) as [ids|]; [|exact Hinv].
    destruct (send_pass ok false m (active_connections st) ids) as [[n rm] ws].
    exact Hinv.
Qed.

(** ** [user_id = 0] is never a key of [user_connections] *)

Lemma index_add_other (k k' : Z) (x : string) (d : gmap Z (list string)) :
  k <> k' -> index_add k x d !! k' = d !! k'.
Proof.
  intros Hne; unfold index_add.
  destruct (d !! k); apply lookup_insert_ne; exact Hne.
Qed.

Lemma index_remove_absent (k k' : Z) (x : string) (d : gmap Z (list string)) :
  d !! k' = None -> index_remove k x d !! k' = None.
Proof.
  intros Hk'; unfold index_remove.
  destruct (d !! k) as [l|] eqn:Hk; [|exact Hk'].
  assert (k <> k') by congruence.
  destruct (if mem x l then remove_first x l else l);
    [rewrite lookup_delete_ne | rewrite lookup_insert_ne]; auto.
Qed.

Lemma truthy_user_nonzero (u : option Z) (z : Z) : truthy_user u = Some z -> z <> 0.
Proof.
  destruct u as [v|]; simpl; [|discriminate].
  destruct (Z.eqb_spec v 0); [discriminate|]. intros [= <-]. exact n.
Qed.

Lemma step_user0 (st : state) (o : op) :
  user_connections st !! 0 = None -> user_connections (step st o) !! 0 = None.
Proof.
  intros H0; destruct o as [a ws cid sid uid|cid sid uid|ok sid m|ok uid m]; simpl.
  - unfold connect. destruct a; simpl; [|exact H0].
    destruct (truthy_user uid) as [u|] eqn:Hu; [|exact H0].
    rewrite index_add_other; [exact H0|]. apply truthy_user_nonzero in Hu. exact Hu.
  - destruct (truthy_user uid); [apply index_remove_absent|]; exact H0.
  - unfold send_to_session.
    destruct (session_connections st !! sid) as [ids|]; [|exact H0].
    destruct (send_pass ok true m (active_connections st) ids) as [[n rm] ws].
    change (user_connections (disconnect_all sid rm
      (mkState (active_connections st) (session_connections st) (user_connections st)
         (sent st ++ ws))) !! 0 = None).
    rewrite (users_disconnect_all sid rm). exact H0.
  - unfold send_to_user.
    destruct (user_connections st !! uid) as [ids|]; [|exact H0].
    destruct (send_pass ok false m (active_connections st) ids) as [[n rm] ws].
    exact H0.
Qed.

Lemma run_ops_user0 (ops : list op) (st : state) :
  user_connections st !! 0 = None -> user_connections (run_ops st ops) !! 0 = None.
Proof.
  unfold run_ops; revert st; induction ops as [|o ops IH]; intros st H; simpl;
    [exact H | apply IH, step_user0, H].
Qed.

Lemma occ_pos_in (c : string) (l : list string) : (0 < occ c l)%nat -> In c l.
Proof.
  intros H. destruct (in_dec string_dec c l) as [Hin|Hn]; [exact Hin|].
  exfalso. induction l as [|y l IH]; [unfold occ in H; simpl in H; lia|].
  rewrite occ_cons in H. destruct (String.eqb c y) eqn:Hcy.
  - apply String.eqb_eq in Hcy. subst. apply Hn. left. reflexivity.
  - apply IH; [simpl in H; exact H | intros Hin; apply Hn; right; exact Hin].
Qed.

Lemma in_occ_pos (c : string) (l : list string) : In c l -> (0 < occ c l)%nat.
Proof.
  induction l as [|y l IH]; [intros []|].
  rewrite occ_cons. intros [->|Hin].
  - rewrite eqb_refl_s. lia.
  - specialize (IH Hin). lia.
Qed.

(** C5 (amended).  [send_to_session] makes one write attempt per indexed
    id present in [active_connections], returns the number of writes that
    succeeded, and only after the pass calls [disconnect(id, session_id)]
    for the collected ids.  Every id whose write raised is then gone from
    [active_connections] and from the session's list, but it stays in
    [user_connections]: [disconnect] is called without a [user_id]. *)
Theorem send_to_session_unregisters_after_pass (ok : websocket -> bool) (sid : Z)
    (message : dict) (st : state) (ids : list string) :
  session_connections st !! sid = Some ids ->
  let writes := map (fun c => (c, message))
                  (List.filter (live ok (active_connections st)) ids) in
  exists rm,
    send_to_session ok sid message st
    = (Ok (length writes),
       disconnect_all sid rm (mkState (active_connections st) (session_connections st)
                                (user_connections st) (sent st ++ writes))) /\
    (forall c s, In c ids -> active_connections st !! c = Some s -> ok s = false ->
       In c rm /\
       active_connections (snd (send_to_session ok sid message st)) !! c = None /\
       ~ In c (sess_list (snd (send_to_session ok sid message st)) sid)) /\
    user_connections (snd (send_to_session ok sid message st)) = user_connections st.
Proof.
  intros Hids writes.
  pose proof (send_pass_writes ok true message (active_connections st) ids) as Hw.
  unfold send_to_session. rewrite Hids.
  destruct (send_pass ok true message (active_connections st) ids) as [[n rm] ws] eqn:Hp.
  destruct Hw as [Hws Hn]. subst n. rewrite Hws. fold writes.
  exists rm. simpl. split; [reflexivity|].
  set (s1 := mkState (active_connections st) (session_connections st)
                     (user_connections st) (sent st ++ writes)).
  fold (disconnect_all sid rm s1). split.
  - intros c s Hin Hc Hs.
    pose proof (send_pass_rm_occ ok true message (active_connections st) ids c s Hc Hs) as Ho.
    rewrite Hp in Ho.
    assert (Hrm : In c rm) by (apply occ_pos_in; rewrite Ho; apply in_occ_pos, Hin).
    split; [exact Hrm|]. split.
    + apply active_disconnect_all. left. exact Hrm.
    + apply occ_zero_notin. rewrite occ_disconnect_all, Ho.
      unfold sess_list. simpl. rewrite Hids. simpl. lia.
  - rewrite users_disconnect_all. reflexivity.
Qed.

Definition c5_state : state :=
  snd (connect true (WebSocket 1) "c1" 1 (Some 5) init).

Lemma send_to_session_unregisters_after_pass_witness :
  session_connections c5_state !! 1 = Some ["c1"%string] /\
  exists rm,
    send_to_session (fun _ => false) 1 [("type"%string, JStr "ping")] c5_state
    = (Ok 0%nat, disconnect_all 1 rm (mkState (active_connections c5_state)
          (session_connections c5_state) (user_connections c5_state) (sent c5_state))).
Proof.
  assert (H : session_connections c5_state !! 1 = Some ["c1"%string]) by reflexivity.
  split; [exact H|].
  destruct (send_to_session_unregisters_after_pass (fun _ => false) 1
              [("type"%string, JStr "ping")] c5_state ["c1"%string] H) as [rm [Heq _]].
  exists rm. rewrite Heq. reflexivity.
Defined.

(** C5 counterexample: a connection of user 5 whose write fails is removed
    from [active_connections] and from its session, but [user_connections]
    still lists it under user 5. *)
Lemma send_to_session_keeps_user_index :
  let st' := snd (send_to_session (fun _ => false) 1 [("type"%string, JStr "ping")] c5_state) in
  active_connections st' !! "c1"%string = None /\
  session_connections st' !! 1 = None /\
  user_connections st' !! 5 = Some ["c1"%string].
Proof. split; [|split]; reflexivity. Qed.

(** C6.  From any state whose indexes hold no empty list, every sequence of
    [connect], [disconnect], [send_to_session] and [send_to_user] calls
    leads to a state whose [session_connections] and [user_connections]
    again hold no empty list. *)
Theorem no_empty_lists_preserved (st : state) (ops : list op) :
  no_empty_lists st -> no_empty_lists (run_ops st ops).
Proof.
  unfold run_ops; revert st; induction ops as [|o ops IH]; intros st H; simpl;
    [exact H | apply IH, step_no_empty, H].
Qed.

Lemma init_no_empty : no_empty_lists init.
Proof. split; intros k l Hk; simpl in Hk; rewrite lookup_empty in Hk; discriminate. Qed.

Definition c6_ops : list op :=
  [OpConnect true (WebSocket 1) "a" 1 (Some 7);
   OpConnect true (WebSocket 2) "b" 1 None;
   OpDisconnect "a" 1 (Some 7);
   OpSendSession (fun _ => false) 1 [];
   OpSendUser (fun _ => true) 7 []].

Lemma no_empty_lists_preserved_witness :
  no_empty_lists init /\ no_empty_lists (run_ops init c6_ops).
Proof.
  split; [exact init_no_empty | apply (no_empty_lists_preserved init c6_ops init_no_empty)].
Defined.

(** C10.  [user_id = 0] is handled like an absent [user_id]: [connect] and
    [disconnect] with [0] are the calls with [None] and leave
    [user_connections] unchanged, and in every state reached from the empty
    manager [send_to_user(0, m)] returns 0 and writes to no socket. *)
Theorem user_id_zero_is_absent :
  (forall a ws cid sid st,
     connect a ws cid sid (Some 0) st = connect a ws cid sid None st /\
     user_connections (snd (connect a ws cid sid (Some 0) st)) = user_connections st) /\
  (forall cid sid st,
     disconnect cid sid (Some 0) st = disconnect cid sid None st /\
     user_connections (disconnect cid sid (Some 0) st) = user_connections st) /\
  (forall ops ok m,
     send_to_user ok 0 m (run_ops init ops) = (Ok 0%nat, run_ops init ops)).
Proof.
  split; [|split].
  - intros a ws cid sid st. split; [reflexivity|].
    unfold connect; destruct a; reflexivity.
  - intros cid sid st. split; reflexivity.
  - intros ops ok m. unfold send_to_user.
    rewrite run_ops_user0; [reflexivity|]. apply lookup_empty.
Qed.

End WebSocketManagerFacts.

(* ================================================================== *)
(** * Further properties of [WebSocketManager] *)

Module WebSocketManagerExtras.
Import WebSocketManager WebSocketManagerFacts.

(** [connect] with an accepted socket adds one entry to the session's
    list, also when the id is already active; the number of active
    connections grows only for a new id. *)
Theorem connect_counts (ws : websocket) (cid : string) (sid : Z) (uid : option Z)
    (st : state) :
  let st' := snd (connect true ws cid sid uid st) in
  get_total_connections st' =
    (match active_connections st !! cid with
     | Some _ => get_total_connections st
     | None => S (get_total_connections st)
     end) /\
  get_session_connection_count sid st' = S (get_session_connection_count sid st) /\
  (forall sid', sid' <> sid ->
     get_session_connection_count sid' st' = get_session_connection_count sid' st).
Proof.
  unfold get_total_connections, get_session_connection_count, connect, index_add. simpl.
  split; [|split].
  - destruct (active_connections st !! cid) eqn:Ha.
    + apply map_size_insert_Some. rewrite Ha. eexists; reflexivity.
    + apply map_size_insert_None, Ha.
  - destruct (session_connections st !! sid) as [l|]; rewrite lookup_insert_eq; simpl;
      [rewrite length_app; simpl; lia|reflexivity].
  - intros sid' Hne.
    destruct (session_connections st !! sid); rewrite lookup_insert_ne by congruence;
      reflexivity.
Qed.

Lemma remove_first_app_notin (x : string) (l : list string) :
  ~ In x l -> remove_first x (l ++ [x]) = l.
Proof.
  induction l as [|y l IH]; intros Hn; simpl; [rewrite eqb_refl_s; reflexivity|].
  destruct (String.eqb_spec x y) as [->|Hne]; [exfalso; apply Hn; left; reflexivity|].
  rewrite IH; [reflexivity|]. intros H; apply Hn; right; exact H.
Qed.

Lemma mem_app_last (x : string) (l : list string) : mem x (l ++ [x]) = true.
Proof. unfold mem. rewrite existsb_app. simpl. rewrite eqb_refl_s, orb_true_r. reflexivity. Qed.

Lemma index_remove_add (k : Z) (x : string) (d : gmap Z (list string)) :
  nonempty_values d -> (forall l, d !! k = Some l -> ~ In x l) ->
  index_remove k x (index_add k x d) = d.
Proof.
  intros Hne Hx. unfold index_add, index_remove.
  destruct (d !! k) as [l|] eqn:Hk.
  - rewrite lookup_insert_eq, mem_app_last, remove_first_app_notin by exact (Hx l eq_refl).
    destruct l as [|y l'] eqn:Hl; [exfalso; exact (Hne k [] Hk eq_refl)|].
    rewrite <- Hl. rewrite insert_insert_eq. apply insert_id. rewrite Hk, Hl. reflexivity.
  - rewrite lookup_insert_eq. simpl. rewrite eqb_refl_s. simpl.
    rewrite delete_insert_eq. apply delete_id, Hk.
Qed.

(** Round trip: in a state with no empty index list (every reachable state,
    by C6), connecting an id that is in no index and then disconnecting it
    with the same session and user gives back the state. *)
Theorem connect_disconnect_roundtrip (ws : websocket) (cid : string) (sid : Z)
    (uid : option Z) (st : state) :
  no_empty_lists st ->
  active_connections st !! cid = None ->
  (forall l, session_connections st !! sid = Some l -> ~ In cid l) ->
  (forall u l, truthy_user uid = Some u -> user_connections st !! u = Some l -> ~ In cid l) ->
  disconnect cid sid uid (snd (connect true ws cid sid uid st)) = st.
Proof.
  intros [Hs Hu] Ha Hsl Hul. unfold connect, disconnect. simpl.
  rewrite delete_insert_eq, delete_id by exact Ha.
  rewrite index_remove_add by (exact Hs || exact Hsl).
  destruct (truthy_user uid) as [u|] eqn:Ht.
  - rewrite index_remove_add by (exact Hu || exact (fun l => Hul u l eq_refl)).
    destruct st; reflexivity.
  - destruct st; reflexivity.
Qed.

(** ** Every active connection stays listed under some session *)

Lemma remove_first_keeps (x y : string) (l : list string) :
  y <> x -> In y l -> In y (remove_first x l).
Proof.
  intros Hne. induction l as [|z l IH]; intros Hin; [contradiction|]. simpl.
  destruct (String.eqb_spec x z) as [->|Hxz].
  - destruct Hin as [->|Hin]; [contradiction|exact Hin].
  - destruct Hin as [->|Hin]; [left; reflexivity|right; apply IH, Hin].
Qed.

Lemma index_remove_keeps (k k' : Z) (x y : string) (d : gmap Z (list string)) (l : list string) :
  y <> x -> d !! k' = Some l -> In y l ->
  exists l', index_remove k x d !! k' = Some l' /\ In y l'.
Proof.
  intros Hne Hk Hin. unfold index_remove.
  destruct (d !! k) as [m|] eqn:Hm; [|exists l; split; assumption].
  set (m' := if mem x m then remove_first x m else m).
  destruct (decide (k = k')) as [<-|Hkk].
  - rewrite Hk in Hm. injection Hm as <-.
    assert (Hy : In y m') by (unfold m'; destruct (mem x l); [apply remove_first_keeps|]; assumption).
    destruct m' as [|z zs] eqn:Hz; [contradiction|].
    exists (z :: zs). rewrite lookup_insert_eq. split; [reflexivity|exact Hy].
  - exists l. destruct m'; [rewrite lookup_delete_ne | rewrite lookup_insert_ne]; auto.
Qed.

Lemma index_add_keeps (k k' : Z) (x y : string) (d : gmap Z (list string)) (l : list string) :
  d !! k' = Some l -> In y l ->
  exists l', index_add k x d !! k' = Some l' /\ In y l'.
Proof.
  intros Hk Hin. unfold index_add.
  destruct (decide (k = k')) as [<-|Hkk].
  - rewrite Hk, lookup_insert_eq. exists (l ++ [x]). split; [reflexivity|].
    apply in_or_app; left; exact Hin.
  - exists l. destruct (d !! k); rewrite lookup_insert_ne by exact Hkk; split; assumption.
Qed.

Lemma index_add_new (k : Z) (x : string) (d : gmap Z (list string)) :
  exists l', index_add k x d !! k = Some l' /\ In x l'.
Proof.
  unfold index_add. destruct (d !! k) as [l|]; rewrite lookup_insert_eq; eexists;
    (split; [reflexivity|]); [apply in_or_app; right; left; reflexivity|left; reflexivity].
Qed.

Lemma disconnect_indexed (cid : string) (sid : Z) (u : option Z) (st : state) :
  active_indexed st -> active_indexed (disconnect cid sid u st).
Proof.
  intros H c Hc. simpl in Hc.
  destruct (decide (c = cid)) as [->|Hne].
  - rewrite lookup_delete_eq in Hc. destruct Hc as [? Hc]. discriminate.
  - rewrite lookup_delete_ne in Hc by congruence.
    destruct (H c Hc) as (k & l & Hk & Hin).
    destruct (index_remove_keeps sid k cid c _ l Hne Hk Hin) as (l' & Hl' & Hin').
    exists k, l'. split; assumption.
Qed.

Lemma step_indexed (st : state) (o : op) :
  active_indexed st -> active_indexed (step st o).
Proof.
  intros H. destruct o as [a ws cid sid uid|cid sid uid|ok sid m|ok uid m]; simpl.
  - destruct a; simpl; [|exact H].
    intros c Hc. simpl in Hc. destruct (decide (c = cid)) as [->|Hne].
    + destruct (index_add_new sid cid (session_connections st)) as (l' & ? & ?).
      exists sid, l'. split; assumption.
    + rewrite lookup_insert_ne in Hc by congruence.
      destruct (H c Hc) as (k & l & Hk & Hin).
      destruct (index_add_keeps sid k cid c _ l Hk Hin) as (l' & ? & ?).
      exists k, l'. split; assumption.
  - apply disconnect_indexed, H.
  - unfold send_to_session. destruct (session_connections st !! sid); [|exact H].
    destruct (send_pass ok true m (active_connections st) l) as [[n rm] ws]. simpl.
    fold (disconnect_all sid rm (mkState (active_connections st) (session_connections st)
                                   (user_connections st) (sent st ++ ws))).
    assert (H1 : forall s1, active_indexed s1 ->
              active_indexed (disconnect_all sid rm s1)).
    { unfold disconnect_all. induction rm as [|c rm IH]; intros s1 Hs1; [exact Hs1|]. simpl.
      apply IH, disconnect_indexed, Hs1. }
    apply H1. exact H.
  - unfold send_to_user. destruct (user_connections st !! uid); [|exact H].
    destruct (send_pass ok false m (active_connections st) l) as [[n rm] ws]. exact H.
Qed.

(** Every connection of [active_connections] is listed in some session's
    entry of [session_connections], and every sequence of operations keeps
    it so (starting, for instance, from the empty manager). *)
Theorem active_connections_stay_indexed (st : state) (ops : list op) :
  active_indexed st -> active_indexed (run_ops st ops).
Proof.
  unfold run_ops. revert st; induction ops as [|o ops IH]; intros st H; [exact H|].
  simpl. apply IH, step_indexed, H.
Qed.

Lemma init_indexed : active_indexed init.
Proof. intros c [x Hc]. discriminate Hc. Qed.

Definition indexed_ops : list op :=
  [OpConnect true (WebSocket 1) "c1" 1 (Some 7); OpConnect true (WebSocket 2) "c2" 2 None;
   OpDisconnect "c1" 2 None; OpConnect true (WebSocket 3) "c1" 3 None;
   OpSendSession (fun _ => false) 1 [("type", JStr "x")]].

Lemma active_connections_stay_indexed_witness :
  active_indexed init /\ active_indexed (run_ops init indexed_ops).
Proof.
  split; [exact init_indexed|].
  exact (active_connections_stay_indexed init indexed_ops init_indexed).
Defined.

(** ** [send_to_user] never unregisters *)

(** [send_to_user] writes to each connection of the user's list that is
    active and whose socket accepts the write, returns that number, and
    leaves all three indexes unchanged: a connection whose write raised
    stays registered. *)
Theorem send_to_user_never_unregisters (ok : websocket -> bool) (uid : Z) (m : dict)
    (st : state) :
  let ids := default [] (user_connections st !! uid) in
  let writes := map (fun c => (c, m)) (List.filter (live ok (active_connections st)) ids) in
  let r := send_to_user ok uid m st in
  fst r = Ok (length writes) /\
  sent (snd r) = sent st ++ writes /\
  active_connections (snd r) = active_connections st /\
  session_connections (snd r) = session_connections st /\
  user_connections (snd r) = user_connections st.
Proof.
  intros ids writes r. unfold r, writes, ids, send_to_user.
  destruct (user_connections st !! uid) as [l|]; simpl.
  - pose proof (send_pass_writes ok false m (active_connections st) l) as Hw.
    destruct (send_pass ok false m (active_connections st) l) as [[n rm] ws].
    destruct Hw as [-> ->]. repeat split.
  - rewrite app_nil_r. repeat split.
Qed.

(** ** A message without a ["type"] key *)

Lemma send_pass_untyped_rm (ok : websocket -> bool) (m : dict)
    (act : gmap string websocket) (ids : list string) (c : string) (s : websocket) :
  dict_get "type" m = None -> act !! c = Some s ->
  let '(_, rm, _) := send_pass ok true m act ids in occ c rm = occ c ids.
Proof.
  intros Hm Hc.
  induction ids as [|y ids IH]; simpl; [reflexivity|].
  destruct (send_pass ok true m act ids) as [[n rm] ws].
  rewrite occ_cons. rewrite Hm. simpl.
  destruct (String.eqb c y) eqn:Hcy.
  - apply String.eqb_eq in Hcy; subst y. rewrite Hc.
    destruct (ok s); rewrite occ_cons, eqb_refl_s; lia.
  - destruct (act !! y) as [s'|]; [|lia].
    destruct (ok s'); rewrite ?occ_cons, ?Hcy; lia.
Qed.

(** [send_to_session] with a message that has no ["type"] key: the debug
    line's [message['type']] raises [KeyError] after each successful write,
    so every active connection of the session is unregistered after the
    pass (removed from [active_connections] and from the session's list),
    also those that received the message and were counted. *)
Theorem send_to_session_untyped_message_unregisters (ok : websocket -> bool) (sid : Z)
    (m : dict) (st : state) (ids : list string) :
  dict_get "type" m = None ->
  session_connections st !! sid = Some ids ->
  let r := send_to_session ok sid m st in
  fst r = Ok (length (List.filter (live ok (active_connections st)) ids)) /\
  (forall c s, In c ids -> active_connections st !! c = Some s ->
     (ok s = true -> In (c, m) (sent (snd r))) /\
     active_connections (snd r) !! c = None /\
     ~ In c (sess_list (snd r) sid)).
Proof.
  intros Hm Hids r. unfold r.
  pose proof (send_pass_writes ok true m (active_connections st) ids) as Hw.
  unfold send_to_session. rewrite Hids.
  destruct (send_pass ok true m (active_connections st) ids) as [[n rm] ws] eqn:Hp.
  destruct Hw as [Hws Hn]. subst n. simpl.
  fold (disconnect_all sid rm (mkState (active_connections st) (session_connections st)
                                 (user_connections st) (sent st ++ ws))).
  split; [rewrite Hws, length_map; reflexivity|].
  intros c s Hin Hc.
  pose proof (send_pass_untyped_rm ok m (active_connections st) ids c s Hm Hc) as Ho.
  rewrite Hp in Ho.
  assert (Hrm : In c rm) by (apply occ_pos_in; rewrite Ho; apply in_occ_pos, Hin).
  split; [|split].
  - intros Hs. rewrite sent_disconnect_all. simpl. apply in_or_app. right.
    rewrite Hws. apply in_map_iff. exists c. split; [reflexivity|].
    apply filter_In. split; [exact Hin|]. unfold live. rewrite Hc. exact Hs.
  - apply active_disconnect_all. left. exact Hrm.
  - apply occ_zero_notin. rewrite occ_disconnect_all, Ho.
    unfold sess_list. simpl. rewrite Hids. simpl. lia.
Qed.

Definition untyped_state : state :=
  snd (connect true (WebSocket 2) "c2" 1 None
         (snd (connect true (WebSocket 1) "c1" 1 None init))).

Lemma send_to_session_untyped_message_unregisters_witness :
  dict_get "type" [("text", JStr "hi")] = None /\
  session_connections untyped_state !! 1 = Some ["c1"; "c2"]%string /\
  let r := send_to_session (fun _ => true) 1 [("text", JStr "hi")] untyped_state in
  fst r = Ok (length (List.filter (live (fun _ => true) (active_connections untyped_state))
                        ["c1"; "c2"]%string)) /\
  (forall c s, In c ["c1"; "c2"]%string -> active_connections untyped_state !! c = Some s ->
     ((fun _ => true) s = true -> In (c, [("text", JStr "hi")]) (sent (snd r))) /\
     active_connections (snd r) !! c = None /\
     ~ In c (sess_list (snd r) 1)).
Proof.
  assert (H1 : dict_get "type" [("text", JStr "hi")] = None) by reflexivity.
  assert (H2 : session_connections untyped_state !! 1 = Some ["c1"; "c2"]%string)
    by reflexivity.
  split; [exact H1|]. split; [exact H2|].
  exact (send_to_session_untyped_message_unregisters (fun _ => true) 1 _ untyped_state _ H1 H2).
Defined.

Lemma connect_disconnect_roundtrip_witness :
  let st := untyped_state in
  no_empty_lists st /\
  active_connections st !! "c3" = None /\
  (forall l, session_connections st !! 1 = Some l -> ~ In "c3"%string l) /\
  (forall u l, truthy_user (Some 4) = Some u -> user_connections st !! u = Some l ->
     ~ In "c3"%string l) /\
  disconnect "c3" 1 (Some 4) (snd (connect true (WebSocket 3) "c3" 1 (Some 4) st)) = st.
Proof.
  assert (H1 : no_empty_lists untyped_state).
  { split; intros k l Hk; vm_compute in Hk;
      repeat (destruct k as [|k|k]; try discriminate Hk); injection Hk as <-; discriminate. }
  assert (H2 : active_connections untyped_state !! "c3" = None) by reflexivity.
  assert (H3 : forall l, session_connections untyped_state !! 1 = Some l -> ~ In "c3"%string l).
  { intros l Hl. vm_compute in Hl. injection Hl as <-. intros [H|[H|[]]]; discriminate H. }
  assert (H4 : forall u l, truthy_user (Some 4) = Some u ->
                 user_connections untyped_state !! u = Some l -> ~ In "c3"%string l).
  { intros u l Hu Hl. vm_compute in Hu. injection Hu as <-. discriminate Hl. }
  split; [exact H1|]. split; [exact H2|]. split; [exact H3|]. split; [exact H4|].
  exact (connect_disconnect_roundtrip (WebSocket 3) "c3" 1 (Some 4) untyped_state H1 H2 H3 H4).
Defined.

Lemma occ_connect_self (c : string) (ws : websocket) (sid : Z) (uid : option Z) (st : state) :
  occ c (sess_list (snd (connect true ws c sid uid st)) sid) = S (occ c (sess_list st sid)).
Proof.
  unfold sess_list, connect, index_add; simpl.
  destruct (session_connections st !! sid) as [l|]; rewrite lookup_insert_eq; simpl;
    unfold occ; [rewrite List.filter_app; simpl; rewrite eqb_refl_s, length_app; simpl; lia
                |simpl; rewrite eqb_refl_s; reflexivity].
Qed.

Lemma count_connect (ws : websocket) (c : string) (sid : Z) (uid : option Z) (st : state) :
  get_session_connection_count sid (snd (connect true ws c sid uid st))
  = S (get_session_connection_count sid st).
Proof.
  unfold get_session_connection_count, connect, index_add; simpl.
  destruct (session_connections st !! sid); rewrite lookup_insert_eq; simpl;
    [rewrite length_app; simpl; lia|reflexivity].
Qed.

Lemma length_remove_first (x : string) (l : list string) :
  mem x l = true -> length (remove_first x l) = pred (length l).
Proof.
  induction l as [|y l IH]; simpl; [discriminate|].
  destruct (String.eqb x y) eqn:Hxy; simpl; [reflexivity|].
  intros H. rewrite IH by exact H.
  destruct l; [discriminate|reflexivity].
Qed.

Lemma count_disconnect_member (c : string) (sid : Z) (uid : option Z) (st : state) :
  mem c (sess_list st sid) = true ->
  get_session_connection_count sid (disconnect c sid uid st)
  = pred (get_session_connection_count sid st).
Proof.
  unfold sess_list, get_session_connection_count, disconnect, index_remove; simpl.
  destruct (session_connections st !! sid) as [l|]; simpl; [|discriminate].
  intros Hm. rewrite Hm, <- (length_remove_first c l Hm).
  destruct (remove_first c l); [rewrite lookup_delete_eq|rewrite lookup_insert_eq]; reflexivity.
Qed.

Lemma mem_occ_pos (c : string) (l : list string) : (0 < occ c l)%nat -> mem c l = true.
Proof.
  intros H. unfold mem. apply existsb_exists. exists c.
  split; [exact (occ_pos_in c l H)|exact (eqb_refl_s c)].
Qed.

(** Reusing a connection id: connecting the same id twice (the second
    [connect] overwrites the socket in [active_connections] but appends the
    id to the session list again) and then disconnecting it once removes
    it from [active_connections] but leaves one more occurrence of it in
    the session's list than before, and a session count one higher. *)
Theorem reconnect_then_disconnect_leaves_stale_id (ws ws' : websocket) (cid : string)
    (sid : Z) (uid : option Z) (st : state) :
  let st3 := disconnect cid sid uid
               (snd (connect true ws' cid sid uid (snd (connect true ws cid sid uid st)))) in
  active_connections st3 !! cid = None /\
  occ cid (sess_list st3 sid) = S (occ cid (sess_list st sid)) /\
  get_session_connection_count sid st3 = S (get_session_connection_count sid st).
Proof.
  cbv zeta.
  set (st2 := snd (connect true ws' cid sid uid (snd (connect true ws cid sid uid st)))).
  assert (Hocc : occ cid (sess_list st2 sid) = S (S (occ cid (sess_list st sid)))).
  { unfold st2. rewrite !occ_connect_self. reflexivity. }
  split; [|split].
  - unfold disconnect. simpl. apply lookup_delete_eq.
  - rewrite occ_disconnect, eqb_refl_s, Hocc. lia.
  - rewrite count_disconnect_member by (apply mem_occ_pos; rewrite Hocc; lia).
    unfold st2. rewrite !count_connect. reflexivity.
Qed.

End WebSocketManagerExtras.

(* ================================================================== *)
(** * Properties of [RedisWebSocketManager] *)

Module RedisWebSocketManagerFacts.
Import RedisWebSocketManager.

(** ** Keys of the shared store *)




Lemma key_count_not_conn (sid : Z) (c : string) :
  key_session_count sid <> key_connection_session c.
Proof. unfold key_session_count, key_connection_session; simpl; discriminate. Qed.

Lemma key_conns_not_conn (sid : Z) (c : string) :
  key_session_connections sid <> key_connection_session c.
Proof. unfold key_session_connections, key_connection_session; simpl; discriminate. Qed.

Lemma string_app_cancel_l (a b c : string) : (a ++ b)%string = (a ++ c)%string -> b = c.
Proof. induction a as [|x a IH]; simpl; [auto | intros H; injection H as H; auto]. Qed.

Lemma key_count_not_conns (sid : Z) :
  key_session_count sid <> key_session_connections sid.
Proof.
  unfold key_session_count, key_session_connections. intros H.
  apply string_app_cancel_l, string_app_cancel_l in H. discriminate H.
Qed.

Lemma py_int_Z_to_string (z : Z) : py_int (Z_to_string z) = Some z.
Proof.
  unfold py_int, Z_to_string.
  assert (H : forall d, option_map Z.of_int (NilZero.int_of_string (NilZero.string_of_int d))
                        = Some (Z.of_int d)).
  { intros [u|u]; destruct u; try reflexivity; rewrite NilZero.isi by discriminate; reflexivity. }
  rewrite H, DecimalZ.of_to. reflexivity.
Qed.

Lemma redis_int_Z_to_string (z : Z) :
  INT64_MIN <= z <= INT64_MAX -> redis_int (Z_to_string z) = Some z.
Proof.
  intros [H1 H2]. unfold redis_int. rewrite py_int_Z_to_string, String.eqb_refl.
  apply Z.leb_le in H1, H2. rewrite H1, H2. reflexivity.
Qed.

Lemma redis_int_spec (s : string) (z : Z) :
  redis_int s = Some z -> s = Z_to_string z /\ INT64_MIN <= z <= INT64_MAX.
Proof.
  unfold redis_int. destruct (py_int s) as [z'|]; [|discriminate].
  destruct (String.eqb_spec (Z_to_string z') s) as [E|]; [|discriminate].
  destruct (Z.leb_spec INT64_MIN z'), (Z.leb_spec z' INT64_MAX); try discriminate.
  intros Hz; injection Hz as <-. split; [symmetry; exact E|lia].
Qed.

Lemma redis_incrby_ok (delta : Z) (s : string) (z : Z) :
  redis_int s = Some z -> INT64_MIN <= z + delta <= INT64_MAX ->
  redis_incrby delta s = Some (z + delta).
Proof.
  intros Hs [H1 H2]. unfold redis_incrby. rewrite Hs.
  apply Z.leb_le in H1, H2. rewrite H1, H2. reflexivity.
Qed.

Lemma string_app_assoc (a b c : string) : ((a ++ b) ++ c = a ++ (b ++ c))%string.
Proof. induction a as [|x a IH]; [reflexivity|exact (f_equal (String x) IH)]. Qed.







Lemma r_hlen_same (k : string) (st st' : store) (n : nat) :
  r_hlen k st = Ok (n, st') -> st' = st.
Proof. unfold r_hlen. destruct (st !! k) as [[s|h]|]; intros H; inversion H; reflexivity. Qed.

Lemma py_int_nonempty (s : string) (z : Z) : py_int s = Some z -> s <> EmptyString.
Proof. intros H ->. discriminate H. Qed.

(** ** Worlds *)

Lemma with_local_redis (w : world) (l : gmap string websocket) :
  redis (with_local w l) = redis w.
Proof. reflexivity. Qed.

Lemma with_redis_same (w : world) : with_redis w (redis w) = w.
Proof. destruct w; reflexivity. Qed.

(** ** Store effects of [disconnect] *)

(** What one call of [disconnect c] may do to the store: nothing, or the
    prefix [HDEL], [HDEL; DELETE], [HDEL; DELETE; DECR] of its updates
    for the session named by the reverse mapping. *)
Inductive disc_effect (c : string) (st : store) : store -> Prop :=
| DE_none : disc_effect c st st
| DE_hdel sid n st1 :
    r_hdel (key_session_connections sid) c st = Ok (n, st1) -> disc_effect c st st1
| DE_delete sid n st1 :
    r_hdel (key_session_connections sid) c st = Ok (n, st1) ->
    disc_effect c st (delete (key_connection_session c) st1)
| DE_decr sid n st1 z st3 :
    r_hdel (key_session_connections sid) c st = Ok (n, st1) ->
    r_decr (key_session_count sid) (delete (key_connection_session c) st1) = Ok (z, st3) ->
    disc_effect c st st3.

Ltac unfold_monad :=
  unfold GET, HGETALL, HLEN, HDEL, DELETE, DECR, int_of in *;
  unfold bind, ret, raise, gets, modify, lift, try_except, call in *.

Ltac no_store_change w := exists (redis w); split; [destruct w; reflexivity | constructor].

Lemma r_hdel_err (k f : string) (st : store) (e : exn) :
  r_hdel k f st = Err e -> e = ResponseError.
Proof. unfold r_hdel; destruct (st !! k) as [[|]|]; congruence. Qed.

Lemma r_decr_err (k : string) (st : store) (e : exn) :
  r_decr k st = Err e -> e = ResponseError.
Proof. unfold r_decr; destruct (st !! k) as [[s|]|]; [destruct (redis_incrby (-1) s)| |]; congruence. Qed.

Lemma disconnect_spec (net : cmd -> bool) (c : string) (w : world) :
  exists st', disconnect net c w = (Ok tt, with_redis (with_local w (delete c (local_connections w))) st')
    /\ disc_effect c (redis w) st'.
Proof.
  unfold disconnect; unfold_monad. simpl.
  destruct (initialized w); simpl; [|no_store_change w].
  destruct (net (CGet _)); simpl; [|no_store_change w].
  unfold r_get; destruct (redis w !! key_connection_session c) as [[s|h]|]; simpl;
    try no_store_change w.
  destruct s as [|a s']; simpl; [no_store_change w|].
  destruct (py_int (String a s')) as [sid|]; simpl; [|no_store_change w].
  destruct (net (CHDel _ _)); simpl; [|no_store_change w].
  destruct (r_hdel (key_session_connections sid) c (redis w)) as [[n st1]|e] eqn:Hd; simpl;
    [|apply r_hdel_err in Hd; subst e; no_store_change w].
  destruct (net (CDelete _)); simpl;
    [|exists st1; split; [reflexivity | econstructor 2; exact Hd]].
  destruct (net (CDecr _)); simpl;
    [|exists (delete (key_connection_session c) st1); split;
      [reflexivity | econstructor 3; exact Hd]].
  destruct (r_decr (key_session_count sid) (delete (key_connection_session c) st1))
    as [[z st3]|e] eqn:Hc; simpl;
    [|apply r_decr_err in Hc; subst e; exists (delete (key_connection_session c) st1); split;
      [reflexivity | econstructor 3; exact Hd]].
  exists st3. split; [|econstructor 4; [exact Hd | exact Hc]].
  destruct (net (CHLen _)); simpl; [|reflexivity].
  unfold r_hlen. destruct (st3 !! key_session_connections sid) as [[|]|]; reflexivity.
Qed.

Lemma disconnect_no_mapping (net : cmd -> bool) (c : string) (w : world) :
  redis w !! key_connection_session c = None ->
  disconnect net c w = (Ok tt, with_local w (delete c (local_connections w))).
Proof.
  intros Hm. unfold disconnect; unfold_monad. simpl.
  destruct (initialized w); simpl; [|reflexivity].
  destruct (net (CGet _)); simpl; [|reflexivity].
  unfold r_get. rewrite Hm. simpl. destruct w; reflexivity.
Qed.


(** ** Preservation facts for the store effects of [disconnect] *)











(** ** [disconnect] and the loop over removed connections *)

Lemma disconnect_ok (net : cmd -> bool) (c : string) (w : world) :
  disconnect net c w = (Ok tt, snd (disconnect net c w)).
Proof. destruct (disconnect_spec net c w) as [st' [-> _]]. reflexivity. Qed.

Lemma disconnect_fields (net : cmd -> bool) (c : string) (w : world) :
  let w' := snd (disconnect net c w) in
  initialized w' = initialized w /\ server_id w' = server_id w /\
  writes w' = writes w /\ published w' = published w /\
  local_connections w' = delete c (local_connections w) /\
  disc_effect c (redis w) (redis w').
Proof.
  destruct (disconnect_spec net c w) as [st' [-> He]]. simpl.
  repeat split; exact He.
Qed.

Lemma disconnect_each_cons (net : cmd -> bool) (c : string) (rm : list string) (w : world) :
  disconnect_each net (c :: rm) w = disconnect_each net rm (snd (disconnect net c w)).
Proof. simpl. unfold bind. rewrite disconnect_ok. reflexivity. Qed.

Lemma disconnect_each_ok (net : cmd -> bool) (rm : list string) (w : world) :
  disconnect_each net rm w = (Ok tt, snd (disconnect_each net rm w)).
Proof.
  revert w; induction rm as [|c rm IH]; intros w; [reflexivity|].
  rewrite disconnect_each_cons. apply IH.
Qed.

Lemma disconnect_each_pres (net : cmd -> bool) (P : world -> Prop) (rm : list string) (w : world) :
  (forall c w0, In c rm -> P w0 -> P (snd (disconnect net c w0))) ->
  P w -> P (snd (disconnect_each net rm w)).
Proof.
  revert w; induction rm as [|c rm IH]; intros w Hs Hw; [exact Hw|].
  rewrite disconnect_each_cons. apply IH.
  - intros c' w0 Hc. apply Hs. right. exact Hc.
  - apply Hs; [left; reflexivity | exact Hw].
Qed.

Lemma disconnect_each_fields (net : cmd -> bool) (rm : list string) (w : world) :
  let w' := snd (disconnect_each net rm w) in
  initialized w' = initialized w /\ server_id w' = server_id w /\
  writes w' = writes w /\ published w' = published w.
Proof.
  apply (disconnect_each_pres net
    (fun w0 => initialized w0 = initialized w /\ server_id w0 = server_id w /\
               writes w0 = writes w /\ published w0 = published w)); [|auto].
  intros c w0 _ (H1 & H2 & H3 & H4).
  destruct (disconnect_fields net c w0) as (E1 & E2 & E3 & E4 & _).
  rewrite E1, E2, E3, E4. auto.
Qed.

(** ** One pass of [_send_to_local_connections] over the hash *)

(** The entry's JSON names this server as its owner (the code's test). *)
Definition recorded_here (me : string) (p : payload) : bool :=
  match json_loads p with
  | Ok (JObj d) =>
      match dict_get "server_id" d with Some (JStr s) => String.eqb s me | _ => false end
  | _ => false
  end.

(** The entry decodes to a JSON object whose owner is not this server. *)
Definition recorded_elsewhere (me : string) (p : payload) : bool :=
  match json_loads p with
  | Ok (JObj d) =>
      negb (match dict_get "server_id" d with Some (JStr s) => String.eqb s me | _ => false end)
  | _ => false
  end.

Lemma with_writes_same (w : world) : with_writes w (writes w) = w.
Proof. destruct w; reflexivity. Qed.

Lemma with_writes_twice (w : world) (a b : list (string * json)) :
  with_writes (with_writes w a) b = with_writes w b.
Proof. reflexivity. Qed.

Lemma local_entry_spec (sock_ok : websocket -> bool) (m : json)
    (n : nat) (rm : list string) (c : string) (p : payload) (w : world) :
  exists n' extra ws,
    local_entry sock_ok m (n, rm) (c, p) w =
      (Ok (n', rm ++ extra), with_writes w (writes w ++ ws)) /\
    (forall x, In x ws -> x.1 = c /\ is_Some (local_connections w !! c)) /\
    (forall x, In x extra -> x = c /\ recorded_elsewhere (server_id w) p = false) /\
    (recorded_here (server_id w) p = true -> local_connections w !! c = None -> In c extra).
Proof.
  unfold local_entry, recorded_here, recorded_elsewhere; unfold_monad.
  unfold json_get, send_json; unfold_monad.
  destruct (json_loads p) as [j|e] eqn:Hp.
  2:{ destruct p; inversion Hp; subst. simpl.
      exists n, [c], []. rewrite app_nil_r, with_writes_same.
      split; [reflexivity|]. split; [intros x []|]. split; [|left; reflexivity].
      intros x [<-|[]]. split; reflexivity. }
  destruct j as [| | | | |d]; simpl;
    try (exists n, [c], []; rewrite app_nil_r, with_writes_same;
         split; [reflexivity|]; split; [intros x []|]; split; [|discriminate];
         intros x [<-|[]]; split; reflexivity).
  destruct (match dict_get "server_id" d with
            | Some (JStr s) => String.eqb s (server_id w) | _ => false end) eqn:Ho; simpl.
  - destruct (local_connections w !! c) as [ws|] eqn:Hl; simpl.
    + destruct (sock_ok ws); simpl.
      * exists (S n), [], [(c, m)]. rewrite app_nil_r.
        split; [reflexivity|]. split; [|split; [intros x []|discriminate]].
        intros x [<-|[]]. split; [reflexivity|eexists; reflexivity].
      * exists n, [c], []. rewrite app_nil_r, with_writes_same.
        split; [reflexivity|]. split; [intros x []|]. split; [|discriminate].
        intros x [<-|[]]. split; reflexivity.
    + exists n, [c], []. rewrite app_nil_r, with_writes_same.
      split; [reflexivity|]. split; [intros x []|]. split; [|intros _ _; left; reflexivity].
      intros x [<-|[]]. split; reflexivity.
  - exists n, [], []. rewrite !app_nil_r, with_writes_same.
    split; [reflexivity|]. split; [intros x []|]. split; [intros x []|discriminate].
Qed.

Lemma local_loop_spec (sock_ok : websocket -> bool) (m : json)
    (es : list (string * payload)) (n : nat) (rm : list string) (w : world) :
  exists n' extra ws,
    local_loop sock_ok m (n, rm) es w =
      (Ok (n', rm ++ extra), with_writes w (writes w ++ ws)) /\
    (forall x, In x ws -> is_Some (local_connections w !! x.1)) /\
    (forall c, In c extra ->
       exists p, In (c, p) es /\ recorded_elsewhere (server_id w) p = false) /\
    (forall c p, In (c, p) es -> recorded_here (server_id w) p = true ->
       local_connections w !! c = None -> In c extra).
Proof.
  revert n rm w; induction es as [|[c p] es IH]; intros n rm w.
  - exists n, [], []. rewrite !app_nil_r, with_writes_same.
    split; [reflexivity|]. split; [intros x []|]. split; [intros x []|intros c p []].
  - destruct (local_entry_spec sock_ok m n rm c p w)
      as (n1 & e1 & ws1 & Heq & Hws1 & He1 & Hh1).
    destruct (IH n1 (rm ++ e1) (with_writes w (writes w ++ ws1)))
      as (n2 & e2 & ws2 & Heq2 & Hws2 & He2 & Hh2).
    simpl in Hws2, He2, Hh2.
    exists n2, (e1 ++ e2), (ws1 ++ ws2). cbn [local_loop]. unfold bind. rewrite Heq, Heq2.
    rewrite with_writes_twice. cbn [writes with_writes]. rewrite <- !app_assoc.
    split; [reflexivity|]. split; [|split].
    + intros x Hx. apply in_app_or in Hx as [Hx|Hx].
      * destruct (Hws1 x Hx) as [-> ?]. assumption.
      * apply Hws2, Hx.
    + intros x Hx. apply in_app_or in Hx as [Hx|Hx].
      * destruct (He1 x Hx) as [-> ?]. exists p. split; [left; reflexivity|assumption].
      * destruct (He2 x Hx) as (p' & ? & ?). exists p'. split; [right|]; assumption.
    + intros c' p' [E|Hin] Hr Hl.
      * injection E as <- <-. apply in_or_app. left. apply Hh1; assumption.
      * apply in_or_app. right. eapply Hh2; eassumption.
Qed.

Lemma send_local_fail (net : cmd -> bool) (sock_ok : websocket -> bool) (sid : Z)
    (m : json) (w : world) :
  (net (CHGetAll (key_session_connections sid)) = false \/
   exists s, redis w !! key_session_connections sid = Some (RStr s)) ->
  send_to_local_connections net sock_ok sid m w = (Ok 0%nat, w).
Proof.
  intros H. unfold send_to_local_connections; unfold_monad.
  destruct H as [H|[s H]].
  - rewrite H. reflexivity.
  - destruct (net _); [|reflexivity]. unfold r_hgetall. rewrite H. reflexivity.
Qed.

Lemma send_local_run (net : cmd -> bool) (sock_ok : websocket -> bool) (sid : Z)
    (m : json) (w : world) :
  let es := hfields (key_session_connections sid) (redis w) in
  net (CHGetAll (key_session_connections sid)) = true ->
  (forall s, redis w !! key_session_connections sid <> Some (RStr s)) ->
  exists n extra ws,
    send_to_local_connections net sock_ok sid m w =
      (Ok n, snd (disconnect_each net extra (with_writes w (writes w ++ ws)))) /\
    (forall x, In x ws -> is_Some (local_connections w !! x.1)) /\
    (forall c, In c extra ->
       exists p, In (c, p) es /\ recorded_elsewhere (server_id w) p = false) /\
    (forall c p, In (c, p) es -> recorded_here (server_id w) p = true ->
       local_connections w !! c = None -> In c extra).
Proof.
  intros es Hn Hk.
  assert (Hg : r_hgetall (key_session_connections sid) (redis w) = Ok (es, redis w)).
  { unfold r_hgetall, es, hfields. clear es.
    destruct (redis w !! _) as [[s|h]|]; [exfalso; eapply Hk; reflexivity|reflexivity|reflexivity]. }
  destruct (local_loop_spec sock_ok m es 0%nat [] w) as (n & extra & ws & Hl & H1 & H2 & H3).
  exists n, extra, ws. split; [|auto].
  unfold send_to_local_connections, HGETALL, call, try_except, bind, ret.
  rewrite Hn, Hg, with_redis_same, Hl. simpl.
  rewrite disconnect_each_ok. reflexivity.
Qed.

Lemma send_local_ok (net : cmd -> bool) (sock_ok : websocket -> bool) (sid : Z)
    (m : json) (w : world) :
  exists n, fst (send_to_local_connections net sock_ok sid m w) = Ok n.
Proof.
  destruct (net (CHGetAll (key_session_connections sid))) eqn:Hn.
  - destruct (redis w !! key_session_connections sid) as [[s|h]|] eqn:Hk.
    + rewrite send_local_fail by (right; exists s; exact Hk). eexists; reflexivity.
    + destruct (send_local_run net sock_ok sid m w Hn) as (n & ex & ws & Heq & _);
        [congruence|]. rewrite Heq. eexists; reflexivity.
    + destruct (send_local_run net sock_ok sid m w Hn) as (n & ex & ws & Heq & _);
        [congruence|]. rewrite Heq. eexists; reflexivity.
  - rewrite send_local_fail by (left; exact Hn). eexists; reflexivity.
Qed.



(** The numeric value of [session:{session_id}:connection_count] as INCR
    and DECR read it ([None]: they raise). *)
Definition count_value (st : store) (sid : Z) : option Z :=
  match st !! key_session_count sid with
  | None => Some 0
  | Some (RStr s) => redis_int s
  | Some (RHash _) => None
  end.


















Lemma recorded_here_elsewhere (me : string) (p : payload) :
  recorded_here me p = true -> recorded_elsewhere me p = false.
Proof.
  unfold recorded_here, recorded_elsewhere.
  destruct (json_loads p) as [[| | | | |d]|]; try discriminate.
  intros ->. reflexivity.
Qed.


(** ** A concrete deployment used by the examples below *)

Definition net_all : cmd -> bool := fun _ => true.
Definition sock_all : websocket -> bool := fun _ => true.

(** Entries as [connect] writes them: [json.dumps({"server_id": ...})]. *)
Definition entry_of (owner : string) : payload :=
  json_dumps (JObj [("server_id", JStr owner)]).

(** Session 1 on server "me": [c1] is live here, [c2] and [c4] are stale
    entries of this server ([c2] still has its reverse mapping, [c4] has
    none), [c3] belongs to server "other".  The local registry also holds
    [c9], which is not in session 1. *)
Definition w_demo : world :=
  mkWorld
    (<[key_session_connections 1 :=
         RHash [("c1", entry_of "me"); ("c2", entry_of "me");
                ("c3", entry_of "other"); ("c4", entry_of "me")]]>
     (<[key_connection_session "c1" := RStr "1"]>
      (<[key_connection_session "c2" := RStr "1"]>
       (<[key_connection_session "c3" := RStr "1"]>
        (<[key_session_count 1 := RStr "4"]> ∅)))))
    [] (<["c1" := WebSocket 1]> (<["c9" := WebSocket 9]> ∅)) "me" true true
    (Some (Task false)) 0 [] [].

Definition demo_message : dict := [("type", JStr "chat")].

Ltac in_list := repeat (first [left; reflexivity | right]).



(** C8: with no reverse mapping [connection:{id}:session], [disconnect id]
    returns without raising, leaves the shared store unchanged (no hash
    field deleted, no counter decremented), and only drops [id] from the
    local registry. *)
Theorem disconnect_without_mapping_is_noop (net : cmd -> bool) (connection_id : string)
    (w : world) :
  redis w !! key_connection_session connection_id = None ->
  fst (disconnect net connection_id w) = Ok tt /\
  redis (snd (disconnect net connection_id w)) = redis w /\
  snd (disconnect net connection_id w) =
    with_local w (delete connection_id (local_connections w)).
Proof.
  intros Hm. unfold disconnect; unfold_monad. simpl.
  destruct (initialized w); simpl; [|repeat split].
  destruct (net (CGet _)); simpl; [|destruct w; repeat split].
  unfold r_get. rewrite Hm. simpl. destruct w; repeat split.
Qed.

Lemma disconnect_without_mapping_is_noop_witness :
  redis w_demo !! key_connection_session "c4" = None /\
  fst (disconnect net_all "c4" w_demo) = Ok tt /\
  redis (snd (disconnect net_all "c4" w_demo)) = redis w_demo /\
  snd (disconnect net_all "c4" w_demo) =
    with_local w_demo (delete "c4" (local_connections w_demo)).
Proof.
  assert (H : redis w_demo !! key_connection_session "c4" = None) by (vm_compute; reflexivity).
  split; [exact H|]. exact (disconnect_without_mapping_is_noop net_all "c4" w_demo H).
Defined.

(** C1 (corrected): on an initialized manager, when PUBLISH of the
    message (tagged with this server's id) raises, [send_to_session]
    catches the error and returns 0 without raising, and nothing else
    happens in that call: local delivery and the count step are skipped,
    because all three share one [try] block. *)
Theorem send_to_session_publish_failure_returns_zero (net : cmd -> bool)
    (sock_ok : websocket -> bool) (session_id : Z) (message : dict) (w : world) :
  initialized w = true ->
  net (CPublish (channel_of session_id)
         (json_dumps (JObj (dict_set "server_id" (JStr (server_id w)) message)))) = false ->
  send_to_session net sock_ok session_id message w = (Ok 0%nat, w).
Proof.
  intros Hi Hp. unfold send_to_session, PUBLISH; unfold_monad. rewrite Hi. simpl.
  rewrite Hp. reflexivity.
Qed.

(** Only the PUBLISH commands fail. *)
Definition net_no_publish : cmd -> bool :=
  fun c => match c with CPublish _ _ => false | _ => true end.

Lemma send_to_session_publish_failure_returns_zero_witness :
  initialized w_demo = true /\
  net_no_publish (CPublish (channel_of 1)
    (json_dumps (JObj (dict_set "server_id" (JStr (server_id w_demo)) demo_message)))) = false /\
  send_to_session net_no_publish sock_all 1 demo_message w_demo = (Ok 0%nat, w_demo).
Proof.
  assert (H1 : initialized w_demo = true) by reflexivity.
  assert (H2 : net_no_publish (CPublish (channel_of 1)
    (json_dumps (JObj (dict_set "server_id" (JStr (server_id w_demo)) demo_message)))) = false)
    by reflexivity.
  split; [exact H1|]. split; [exact H2|].
  exact (send_to_session_publish_failure_returns_zero net_no_publish sock_all 1 demo_message
           w_demo H1 H2).
Defined.

(** C1: with only PUBLISH failing, the local-send path alone would write
    to [c1], yet [send_to_session] writes to no socket. *)
Lemma send_to_session_publish_failure_skips_local :
  writes (snd (send_to_local_connections net_no_publish sock_all 1 (JObj demo_message) w_demo))
    = [("c1", JObj demo_message)] /\
  fst (send_to_session net_no_publish sock_all 1 demo_message w_demo) = Ok 0%nat /\
  writes (snd (send_to_session net_no_publish sock_all 1 demo_message w_demo)) = [].
Proof. vm_compute. split; [reflexivity|split; reflexivity]. Qed.

Lemma send_local_empty (net : cmd -> bool) (sock_ok : websocket -> bool) (sid : Z)
    (m : json) (w : world) :
  hfields (key_session_connections sid) (redis w) = [] ->
  redis (snd (send_to_local_connections net sock_ok sid m w)) = redis w.
Proof.
  intros He.
  destruct (net (CHGetAll (key_session_connections sid))) eqn:Hn;
    [|rewrite send_local_fail by (left; exact Hn); reflexivity].
  destruct (redis w !! key_session_connections sid) as [[s|h]|] eqn:Hk;
    [rewrite send_local_fail by (right; exists s; exact Hk); reflexivity|..];
  destruct (send_local_run net sock_ok sid m w Hn) as (n & [|c extra] & ws & Heq & _ & Hex & _);
    try congruence; rewrite Heq; try reflexivity;
  destruct (Hex c (or_introl eq_refl)) as (p & Hin & _); rewrite He in Hin; contradiction.
Qed.

(** C2: on an initialized manager whose store commands all succeed,
    [send_to_session] returns the number of fields of
    [session:{session_id}:connections] as it stands after the call (the
    cross-process total, read after local delivery and its purge), not
    the local write count; for a session with no entry it returns 0. *)
Theorem send_to_session_returns_directory_count (net : cmd -> bool)
    (sock_ok : websocket -> bool) (session_id : Z) (message : dict) (w : world) :
  initialized w = true -> (forall x, net x = true) ->
  let k := key_session_connections session_id in
  let r := send_to_session net sock_ok session_id message w in
  fst r = Ok (length (hfields k (redis (snd r)))) /\
  (hfields k (redis w) = [] -> fst r = Ok 0%nat).
Proof.
  intros Hi Hnet k r.
  assert (Hloc : forall w1, exists n w2,
             send_to_local_connections net sock_ok session_id (JObj message) w1 = (Ok n, w2) /\
             (hfields k (redis w1) = [] -> hfields k (redis w2) = [])).
  { intros w1. destruct (send_local_ok net sock_ok session_id (JObj message) w1) as [n Hn].
    exists n, (snd (send_to_local_connections net sock_ok session_id (JObj message) w1)).
    split; [destruct (send_to_local_connections _ _ _ _ w1); simpl in *; congruence|].
    intros He. unfold k in *. rewrite send_local_empty by exact He. exact He. }
  set (w1 := with_published w (published w ++
               [(channel_of session_id,
                 json_dumps (JObj (dict_set "server_id" (JStr (server_id w)) message)))])).
  destruct (Hloc w1) as (n & w2 & Hl & He2).
  assert (Hr : r = match r_hlen k (redis w2) with
                   | Ok (a, st') => (Ok a, with_redis w2 st')
                   | Err _ => (Ok 0%nat, w2)
                   end).
  { unfold r, send_to_session, PUBLISH, get_session_connection_count; unfold_monad.
    rewrite Hi. simpl. rewrite Hnet. fold w1. rewrite Hl. rewrite Hnet. fold k.
    destruct (r_hlen k (redis w2)) as [[a st']|e] eqn:Hh; [reflexivity|].
    unfold r_hlen in Hh. destruct (redis w2 !! k) as [[|]|]; inversion Hh; reflexivity. }
  rewrite Hr. unfold r_hlen, hfields in *.
  destruct (redis w2 !! k) as [[s|h]|] eqn:Hk; simpl; rewrite ?Hk; split; try reflexivity.
  intros He. rewrite He2; [reflexivity|exact He].
Qed.

Lemma send_to_session_returns_directory_count_witness :
  initialized w_demo = true /\ (forall x, net_all x = true) /\
  let k := key_session_connections 1 in
  let r := send_to_session net_all sock_all 1 demo_message w_demo in
  fst r = Ok (length (hfields k (redis (snd r)))) /\
  (hfields k (redis w_demo) = [] -> fst r = Ok 0%nat).
Proof.
  assert (H1 : initialized w_demo = true) by reflexivity.
  assert (H2 : forall x, net_all x = true) by (intros; reflexivity).
  split; [exact H1|]. split; [exact H2|].
  exact (send_to_session_returns_directory_count net_all sock_all 1 demo_message w_demo H1 H2).
Defined.

(** The counter key holds nothing, or text that [int] accepts after the
    [or 0] of the code. *)
Definition count_readable (st : store) (sid : Z) : Prop :=
  match st !! key_session_count sid with
  | None => True
  | Some (RStr s) => s = EmptyString \/ is_Some (py_int s)
  | Some (RHash _) => False
  end.

(** C3 (corrected): when the store commands succeed, the directory key is a
    hash (or absent) and the counter is readable, [get_session_info]
    returns exactly the six keys [session_id], [total_connections],
    [connection_count], [local_connections], [server_id] and
    [redis_connections]; [redis_connections] lists the field names of the
    session's directory hash and [local_connections] lists every
    connection of this process's registry, of any session.  When the
    store is unreachable it returns the empty dict. *)
Theorem get_session_info_record (net : cmd -> bool) (session_id : Z) (w : world) :
  (forall x, net x = true) ->
  (forall s, redis w !! key_session_connections session_id <> Some (RStr s)) ->
  count_readable (redis w) session_id ->
  let conns := hfields (key_session_connections session_id) (redis w) in
  (exists cnt lc,
     get_session_info net session_id w =
       (Ok [("session_id", PInt session_id);
            ("total_connections", PInt (Z.of_nat (length conns)));
            ("connection_count", PInt cnt);
            ("local_connections", PList lc);
            ("server_id", PStr (server_id w));
            ("redis_connections", PList conns.*1)]%string, w) /\
     (forall c, In c lc <-> is_Some (local_connections w !! c))) /\
  get_session_info (fun _ => false) session_id w = (Ok [], w).
Proof.
  intros Hnet Hk Hc conns. split; [|reflexivity].
  assert (Hg : r_hgetall (key_session_connections session_id) (redis w) = Ok (conns, redis w)).
  { unfold r_hgetall, conns, hfields. clear conns.
    destruct (redis w !! _) as [[s|h]|]; [exfalso; eapply Hk; reflexivity|reflexivity|reflexivity]. }
  assert (Hlc : forall c, In c (map_to_list (local_connections w)).*1 <->
                          is_Some (local_connections w !! c)).
  { intros c. rewrite <- list_elem_of_In, list_elem_of_fmap. split.
    - intros [[c' x] [-> Hin]]. apply elem_of_map_to_list in Hin. exists x. exact Hin.
    - intros [x Hx]. exists (c, x). split; [reflexivity|]. apply elem_of_map_to_list, Hx. }
  unfold count_readable in Hc.
  destruct (redis w !! key_session_count session_id) as [[s|h]|] eqn:Hs; [|contradiction|].
  - destruct Hc as [->|[z Hz]].
    + exists 0, (map_to_list (local_connections w)).*1. split; [|exact Hlc].
      unfold get_session_info; unfold_monad. rewrite Hnet, Hg. simpl.
      rewrite with_redis_same, Hnet. unfold r_get. rewrite Hs. simpl.
      rewrite with_redis_same. reflexivity.
    + exists z, (map_to_list (local_connections w)).*1. split; [|exact Hlc].
      destruct s as [|a s']; [discriminate Hz|].
      unfold get_session_info; unfold_monad. rewrite Hnet, Hg. simpl.
      rewrite with_redis_same, Hnet. unfold r_get. rewrite Hs. simpl. rewrite Hz.
      rewrite with_redis_same. reflexivity.
  - exists 0, (map_to_list (local_connections w)).*1. split; [|exact Hlc].
    unfold get_session_info; unfold_monad. rewrite Hnet, Hg. simpl.
    rewrite with_redis_same, Hnet. unfold r_get. rewrite Hs. simpl.
    rewrite with_redis_same. reflexivity.
Qed.

Lemma get_session_info_record_witness :
  (forall x, net_all x = true) /\
  (forall s, redis w_demo !! key_session_connections 1 <> Some (RStr s)) /\
  count_readable (redis w_demo) 1 /\
  let conns := hfields (key_session_connections 1) (redis w_demo) in
  (exists cnt lc,
     get_session_info net_all 1 w_demo =
       (Ok [("session_id", PInt 1);
            ("total_connections", PInt (Z.of_nat (length conns)));
            ("connection_count", PInt cnt);
            ("local_connections", PList lc);
            ("server_id", PStr (server_id w_demo));
            ("redis_connections", PList conns.*1)]%string, w_demo) /\
     (forall c, In c lc <-> is_Some (local_connections w_demo !! c))) /\
  get_session_info (fun _ => false) 1 w_demo = (Ok [], w_demo).
Proof.
  assert (H1 : forall x, net_all x = true) by (intros; reflexivity).
  assert (H2 : forall s, redis w_demo !! key_session_connections 1 <> Some (RStr s))
    by (intros s; vm_compute; discriminate).
  assert (H3 : count_readable (redis w_demo) 1)
    by (vm_compute; right; eexists; reflexivity).
  split; [exact H1|]. split; [exact H2|]. split; [exact H3|].
  exact (get_session_info_record net_all 1 w_demo H1 H2 H3).
Defined.

Ltac not_in := simpl; let H := fresh in intros H; repeat (destruct H as [H|H]; [discriminate H|]); exact H.

(** C3: the record has no key [remote_connection_ids], and its
    [local_connections] lists [c9], a local connection that is not
    attached to session 1. *)
Lemma get_session_info_lists_other_sessions :
  exists info lc,
    fst (get_session_info net_all 1 w_demo) = Ok info /\
    ~ In "remote_connection_ids"%string info.*1 /\
    In ("local_connections"%string, PList lc) info /\
    In "c9"%string lc /\
    ~ In "c9"%string (hfields (key_session_connections 1) (redis w_demo)).*1.
Proof.
  eexists; eexists. split; [vm_compute; reflexivity|].
  split; [vm_compute; not_in|]. split; [vm_compute; in_list|].
  split; [vm_compute; in_list|vm_compute; not_in].
Qed.

Lemma process_message_ok (net : cmd -> bool) (sock_ok : websocket -> bool)
    (m : ps_message) (w : world) :
  fst (process_message net sock_ok m w) = Ok tt.
Proof.
  unfold process_message, nth_py, int_of, json_get; unfold_monad.
  destruct (String.eqb (ps_type m) "pmessage"); [|reflexivity].
  destruct (nth_error _ 1) as [f|]; [|reflexivity].
  destruct (py_int f) as [sid|]; [|reflexivity].
  destruct (json_loads (ps_data m)) as [[| | | | |d]|e] eqn:Hj; try reflexivity.
  - destruct (send_local_ok net sock_ok sid (JObj d) w) as [n Hn].
    destruct (send_to_local_connections net sock_ok sid (JObj d) w) as [r w'].
    simpl in Hn. subst r. reflexivity.
  - destruct (ps_data m); inversion Hj. reflexivity.
Qed.

(** C7 (corrected): one message never ends the listener loop: processing
    it raises nothing, and the loop goes on with the next message.  Only
    messages of type ["pmessage"] are handled (others are skipped), and the
    session id is read as [int(channel.split(":")[1])], the text between
    the first and the second colon; the message is forwarded to the
    local-send path for that session when its data decodes to a JSON
    object. *)
Theorem listener_survives_each_message (net : cmd -> bool) (sock_ok : websocket -> bool)
    (m : ps_message) (ms : list ps_message) (w : world) :
  fst (process_message net sock_ok m w) = Ok tt /\
  listen net sock_ok (m :: ms) w = listen net sock_ok ms (snd (process_message net sock_ok m w)) /\
  (ps_type m <> "pmessage"%string -> process_message net sock_ok m w = (Ok tt, w)) /\
  (forall field sid d,
     ps_type m = "pmessage"%string ->
     nth_error (py_split ":" (ps_channel m)) 1 = Some field ->
     py_int field = Some sid ->
     json_loads (ps_data m) = Ok (JObj d) ->
     process_message net sock_ok m w =
       (Ok tt, snd (send_to_local_connections net sock_ok sid (JObj d) w))).
Proof.
  assert (Hok := process_message_ok net sock_ok m w).
  split; [exact Hok|]. split.
  { simpl. unfold bind.
    destruct (process_message net sock_ok m w) as [r w']. simpl in Hok. subst r. reflexivity. }
  split.
  { intros Ht. unfold process_message. apply String.eqb_neq in Ht. rewrite Ht. reflexivity. }
  intros field sid d Ht Hf Hs Hj.
  unfold process_message, nth_py, int_of, json_get; unfold_monad.
  rewrite Ht, Hf. simpl. rewrite Hs, Hj. simpl.
  destruct (send_local_ok net sock_ok sid (JObj d) w) as [n Hn].
  destruct (send_to_local_connections net sock_ok sid (JObj d) w) as [r w'].
  simpl in Hn. subst r. reflexivity.
Qed.

(** A message published by server "other" on the channel of session 1. *)
Definition demo_pmessage : ps_message :=
  PsMessage "pmessage" "session:1" (json_dumps (JObj [("server_id", JStr "other")])).

Lemma listener_survives_each_message_witness :
  ps_type demo_pmessage = "pmessage"%string /\
  nth_error (py_split ":" (ps_channel demo_pmessage)) 1 = Some "1"%string /\
  py_int "1" = Some 1 /\
  json_loads (ps_data demo_pmessage) = Ok (JObj [("server_id", JStr "other")]) /\
  process_message net_all sock_all demo_pmessage w_demo =
    (Ok tt, snd (send_to_local_connections net_all sock_all 1
                   (JObj [("server_id", JStr "other")]) w_demo)).
Proof.
  destruct (listener_survives_each_message net_all sock_all demo_pmessage [] w_demo)
    as (_ & _ & _ & H).
  assert (H1 : ps_type demo_pmessage = "pmessage"%string) by reflexivity.
  assert (H2 : nth_error (py_split ":" (ps_channel demo_pmessage)) 1 = Some "1"%string)
    by reflexivity.
  assert (H3 : py_int "1" = Some 1) by reflexivity.
  assert (H4 : json_loads (ps_data demo_pmessage) = Ok (JObj [("server_id", JStr "other")]))
    by reflexivity.
  split; [exact H1|]. split; [exact H2|]. split; [exact H3|]. split; [exact H4|].
  exact (H "1"%string 1 _ H1 H2 H3 H4).
Defined.

(** The spec's reading of a channel name: the text after its first colon. *)
Fixpoint after_first_colon (s : string) : string :=
  match s with
  | EmptyString => EmptyString
  | String a s' => if Ascii.eqb a ":" then s' else after_first_colon s'
  end.

(** C7: on the channel ["session:1:x"] the text after the first colon,
    ["1:x"], is not an integer, yet the listener forwards the message to
    session 1 and [c1] receives it. *)
Lemma listener_reads_second_field :
  let m := PsMessage "pmessage" "session:1:x" (json_dumps (JObj demo_message)) in
  py_int (after_first_colon (ps_channel m)) = None /\
  writes (snd (process_message net_all sock_all m w_demo)) = [("c1"%string, JObj demo_message)].
Proof. vm_compute. split; reflexivity. Qed.

(** C9: [cleanup] raises nothing (unless [pubsub.close()] itself is
    cancelled), leaves the manager uninitialized, leaves no listener task
    running (a running one is cancelled and awaited, the cancellation being
    swallowed), and closes the subscription handle once when one is
    present.  It holds from every state, so also for repeated calls and
    without a prior [initialize]. *)
Theorem cleanup_always_succeeds (cancelled_body close_result : res unit) (w : world) :
  close_result <> Err CancelledError ->
  let r := cleanup cancelled_body close_result w in
  fst r = Ok tt /\
  initialized (snd r) = false /\
  listener_task (snd r) =
    match listener_task w with Some _ => Some (Task true) | None => None end /\
  pubsub_closes (snd r) = (pubsub_closes w + if pubsub w then 1 else 0)%nat.
Proof.
  intros Hc r. unfold r, cleanup, listener_guard, try_except_cancelled; unfold_monad.
  destruct w as [st pub loc me init ps t closes ws]; simpl.
  destruct t as [[[|]]|], ps, close_result as [[]|[]], cancelled_body as [[]|[]];
    simpl; repeat split; try lia; congruence.
Qed.

Lemma cleanup_always_succeeds_witness :
  (Ok tt : res unit) <> Err CancelledError /\
  let r := cleanup (Err CancelledError) (Ok tt) w_demo in
  fst r = Ok tt /\
  initialized (snd r) = false /\
  listener_task (snd r) =
    match listener_task w_demo with Some _ => Some (Task true) | None => None end /\
  pubsub_closes (snd r) = (pubsub_closes w_demo + if pubsub w_demo then 1 else 0)%nat.
Proof.
  assert (H : (Ok tt : res unit) <> Err CancelledError) by discriminate.
  split; [exact H|].
  exact (cleanup_always_succeeds (Err CancelledError) (Ok tt) w_demo H).
Defined.

End RedisWebSocketManagerFacts.

(* ------------------------------------------------------------------ *)
(** ** Further properties of [RedisWebSocketManager] *)

Module RedisWebSocketManagerExtras.
Import RedisWebSocketManager RedisWebSocketManagerFacts.

Definition reg_all : reg_cmd -> bool := fun _ => true.

Lemma string_app_nil_r (a : string) : (a ++ "")%string = a.
Proof. induction a as [|x a IH]; [reflexivity|exact (f_equal (String x) IH)]. Qed.

Lemma py_split_digits (u : Decimal.uint) (cur : string) :
  py_split_acc ":" (NilEmpty.string_of_uint u) cur = [(cur ++ NilEmpty.string_of_uint u)%string].
Proof.
  revert cur; induction u; intros cur; simpl;
    try (rewrite IHu, string_app_assoc; reflexivity).
  rewrite string_app_nil_r. reflexivity.
Qed.

Lemma py_split_channel (sid : Z) :
  py_split ":" (channel_of sid) = ["session"; Z_to_string sid]%string.
Proof.
  unfold channel_of, py_split, Z_to_string. cbv [String.append]. simpl.
  destruct (Z.to_int sid) as [u|u]; simpl; destruct u; simpl; try reflexivity;
    match goal with |- _ :: py_split_acc _ _ ?cur = _ =>
      pose proof (py_split_digits u cur) as E;
      cbn -[NilEmpty.string_of_uint] in E |- *; rewrite E; reflexivity end.
Qed.

Lemma r_hset_other (k f : string) (v : payload) (st st' : store) (n : nat) (k' : string) :
  r_hset k f v st = Ok (n, st') -> k' <> k -> st' !! k' = st !! k'.
Proof.
  unfold r_hset. intros H Hne.
  destruct (st !! k) as [[s|h]|]; inversion H; subst; apply lookup_insert_ne; congruence.
Qed.

Lemma r_expire_same (k : string) (st st' : store) (b : bool) :
  r_expire k st = Ok (b, st') -> st' = st.
Proof. unfold r_expire. intros H. inversion H. reflexivity. Qed.

Lemma r_set_other (k v : string) (st st' : store) (k' : string) :
  r_set k v st = Ok (tt, st') -> k' <> k -> st' !! k' = st !! k'.
Proof. unfold r_set. intros H Hne. inversion H; subst. apply lookup_insert_ne. congruence. Qed.

Lemma r_incr_other (k k' : string) (st st' : store) (z : Z) :
  r_incr k st = Ok (z, st') -> k' <> k -> st' !! k' = st !! k'.
Proof.
  unfold r_incr. intros H Hne.
  destruct (st !! k) as [[s|h]|]; [destruct (redis_incrby 1 s)|..]; inversion H; subst;
    try apply lookup_insert_ne; congruence.
Qed.

Lemma r_hset_err (k f : string) (v : payload) (st : store) (e : exn) :
  r_hset k f v st = Err e -> e = ResponseError.
Proof. unfold r_hset; destruct (st !! k) as [[|]|]; congruence. Qed.

Lemma r_incr_err (k : string) (st : store) (e : exn) :
  r_incr k st = Err e -> e = ResponseError.
Proof. unfold r_incr; destruct (st !! k) as [[s|]|]; [destruct (redis_incrby 1 s)| |]; congruence. Qed.

Lemma r_hlen_err (k : string) (st : store) (e : exn) :
  r_hlen k st = Err e -> e = ResponseError.
Proof. unfold r_hlen; destruct (st !! k) as [[|]|]; congruence. Qed.

Lemma with_redis_twice (w : world) (a b : store) : with_redis (with_redis w a) b = with_redis w b.
Proof. reflexivity. Qed.

Ltac reg_cases :=
  repeat match goal with
  | H : ?x = Err ?e |- context [is_Exception ?e] =>
      first [apply r_hset_err in H | apply r_incr_err in H | apply r_hlen_err in H
            | unfold r_expire, r_set in H; discriminate H]; subst e
  | |- context [if ?b then _ else _] =>
      lazymatch b with is_Exception _ => fail | _ => destruct b end
  | |- context [match ?e with Ok _ => _ | Err _ => _ end] =>
      lazymatch e with context [redis] => destruct e as [[? ?]|?] eqn:? end
  end; simpl in *.

Lemma connect_true_shape (net : cmd -> bool) (reg_net : reg_cmd -> bool) (ws : websocket)
    (cid : string) (sid : Z) (uid : option Z) (t : json) (w : world) :
  exists st' l,
    connect net reg_net true ws cid sid uid t w =
      (Ok tt, with_expiries (with_redis (with_local w (<[cid := ws]> (local_connections w))) st')
                (expiries w ++ l)) /\
    (forall k, k <> key_session_connections sid -> k <> key_connection_session cid ->
      k <> key_session_count sid -> st' !! k = redis w !! k) /\
    (forall x, In x l -> x.2 = 3600 /\
       (x.1 = key_session_connections sid \/ x.1 = key_connection_session cid \/
        x.1 = key_session_count sid)).
Proof.
  unfold connect, HSET, EXPIRE, SET, INCR, HLEN, reg_call, call, set_expiry; unfold_monad.
  cbv [negb]; cbv beta iota.
  reg_cases.
  all: match goal with |- exists st' l, (_, ?X) = _ /\ _ =>
         exists (redis X), (drop (length (expiries w)) (expiries X)) end.
  all: split; [destruct w; cbn [with_expiries with_redis with_local expiries redis
                 local_connections published server_id initialized pubsub listener_task
                 pubsub_closes writes];
               rewrite <- ?app_assoc, ?drop_app_length, ?drop_all, ?app_nil_r; reflexivity|].
  all: (split; [intros k H1 H2 H3; cbn [with_expiries with_redis with_local expiries redis]|
               cbn [with_expiries with_redis with_local expiries redis];
               rewrite <- ?app_assoc, ?drop_app_length, ?drop_all;
               intros x Hx; repeat destruct Hx as [<-|Hx]; try contradiction;
               (split; [reflexivity|auto])]).
  all: repeat match goal with
       | H : r_hset _ _ _ ?s = Ok (_, ?s') |- context [?s' !! ?k] =>
           rewrite (r_hset_other _ _ _ _ _ _ k H) by assumption
       | H : r_expire _ ?s = Ok (_, ?s') |- context [?s'] =>
           rewrite (r_expire_same _ _ _ _ H)
       | H : r_set _ _ ?s = Ok (?u, ?s') |- context [?s' !! ?k] =>
           destruct u; rewrite (r_set_other _ _ _ _ k H) by assumption
       | H : r_incr _ ?s = Ok (_, ?s') |- context [?s' !! ?k] =>
           rewrite (r_incr_other _ k _ _ _ H) by assumption
       | H : r_hlen _ ?s = Ok (_, ?s') |- context [?s'] =>
           rewrite (r_hlen_same _ _ _ _ H)
       end; reflexivity.
Qed.

(** [connect]: when [websocket.accept()] raises, the error propagates and
    nothing is registered.  Otherwise it returns normally whatever the
    store does (its errors are only logged), registers the socket in the
    local registry, changes no key of the store other than the session's
    hash, the reverse mapping of the connection and the session counter,
    and records expiries, all of 3600 s, only for these three keys; it
    publishes nothing and writes to no socket. *)
Theorem connect_touches_only_its_keys (net : cmd -> bool) (reg_net : reg_cmd -> bool) (ws : websocket)
    (cid : string) (sid : Z) (uid : option Z) (t : json) (w : world) :
  connect net reg_net false ws cid sid uid t w = (Err SocketError, w) /\
  exists st' l,
    connect net reg_net true ws cid sid uid t w =
      (Ok tt, with_expiries (with_redis (with_local w (<[cid := ws]> (local_connections w))) st')
                (expiries w ++ l)) /\
    (forall k, k <> key_session_connections sid -> k <> key_connection_session cid ->
      k <> key_session_count sid -> st' !! k = redis w !! k) /\
    (forall x, In x l -> x.2 = 3600 /\
       (x.1 = key_session_connections sid \/ x.1 = key_connection_session cid \/
        x.1 = key_session_count sid)).
Proof. split; [reflexivity|]. exact (connect_true_shape net reg_net ws cid sid uid t w). Qed.

Lemma connect_ok_store (net : cmd -> bool) (reg_net : reg_cmd -> bool) (ws : websocket)
    (cid : string) (sid : Z) (uid : option Z) (t : json) (w : world) (z0 : Z) :
  (forall c, reg_net c = true) ->
  (forall s, redis w !! key_session_connections sid <> Some (RStr s)) ->
  count_value (redis w) sid = Some z0 -> z0 < INT64_MAX ->
  connect net reg_net true ws cid sid uid t w =
    (Ok tt, with_expiries
       (with_redis (with_local w (<[cid := ws]> (local_connections w)))
         (<[key_session_count sid := RStr (Z_to_string (z0 + 1))]>
          (<[key_connection_session cid := RStr (Z_to_string sid)]>
           (<[key_session_connections sid :=
                RHash (hash_set cid (json_dumps (connection_info (server_id w) uid t))
                         (hfields (key_session_connections sid) (redis w)))]> (redis w)))))
       (expiries w ++ [(key_session_connections sid, 3600); (key_connection_session cid, 3600);
                       (key_session_count sid, 3600)])).
Proof.
  intros Hreg Hk Hc Hmax.
  set (p := json_dumps (connection_info (server_id w) uid t)).
  set (st1 := <[key_session_connections sid :=
              RHash (hash_set cid p (hfields (key_session_connections sid) (redis w)))]> (redis w)).
  assert (E1 : exists n, r_hset (key_session_connections sid) cid p (redis w) = Ok (n, st1)).
  { unfold r_hset, st1, hfields.
    destruct (redis w !! key_session_connections sid) as [[s|h]|];
      [exfalso; eapply Hk; reflexivity|eexists; reflexivity|eexists; reflexivity]. }
  destruct E1 as [n E1].
  assert (X1 : st1 !! key_session_connections sid =
               Some (RHash (hash_set cid p (hfields (key_session_connections sid) (redis w)))))
    by apply lookup_insert_eq.
  set (st2 := <[key_connection_session cid := RStr (Z_to_string sid)]> st1).
  set (st3 := <[key_session_count sid := RStr (Z_to_string (z0 + 1))]> st2).
  assert (E2 : r_incr (key_session_count sid) st2 = Ok (z0 + 1, st3)).
  { unfold r_incr, st3, st2, st1.
    rewrite lookup_insert_ne by (apply not_eq_sym, key_count_not_conn).
    rewrite lookup_insert_ne by (apply not_eq_sym, key_count_not_conns).
    unfold count_value in Hc.
    destruct (redis w !! key_session_count sid) as [[s|h]|]; [|discriminate Hc|].
    - destruct (redis_int_spec s z0 Hc) as [_ Hr].
      rewrite (redis_incrby_ok 1 s z0 Hc) by lia. reflexivity.
    - injection Hc as <-. reflexivity. }
  assert (X2 : st3 !! key_session_count sid = Some (RStr (Z_to_string (z0 + 1))))
    by apply lookup_insert_eq.
  unfold connect, HSET, EXPIRE, SET, INCR, HLEN, reg_call, call, set_expiry; unfold_monad.
  cbv [negb]; cbv beta iota. simpl. rewrite !Hreg. fold p. rewrite E1. simpl.
  rewrite X1. simpl. fold st2. rewrite E2. simpl. rewrite X2. simpl.
  destruct (net _).
  - destruct (r_hlen _ _) as [[m st5]|e] eqn:E5.
    + apply r_hlen_same in E5. subst st5. destruct w; cbn [with_expiries with_redis with_local expiries redis local_connections]; rewrite <- !app_assoc; reflexivity.
    + apply r_hlen_err in E5. subst e. destruct w; cbn [with_expiries with_redis with_local expiries redis local_connections]; rewrite <- !app_assoc; reflexivity.
  - destruct w; cbn [with_expiries with_redis with_local expiries redis local_connections]; rewrite <- !app_assoc; reflexivity.
Qed.

Lemma hash_set_fresh (f : string) (v : payload) (h : list (string * payload)) :
  ~ In f h.*1 -> hash_set f v h = h ++ [(f, v)].
Proof.
  induction h as [|[f' v'] h IH]; intros Hn; [reflexivity|]. simpl.
  destruct (String.eqb f f') eqn:E.
  - apply String.eqb_eq in E. subst f'. exfalso. apply Hn. left. reflexivity.
  - rewrite IH; [reflexivity|]. intros Hin. apply Hn. right. exact Hin.
Qed.

Lemma filter_fresh (f : string) (v : payload) (h : list (string * payload)) :
  ~ In f h.*1 -> List.filter (fun fv => negb (String.eqb fv.1 f)) (h ++ [(f, v)]) = h.
Proof.
  induction h as [|[f' v'] h IH]; intros Hn; simpl.
  - rewrite String.eqb_refl. reflexivity.
  - destruct (String.eqb f' f) eqn:E.
    + apply String.eqb_eq in E. subst f'. exfalso. apply Hn. left. reflexivity.
    + simpl. rewrite IH; [reflexivity|]. intros Hin. apply Hn. right. exact Hin.
Qed.

Lemma hash_set_in (f : string) (v : payload) (h : list (string * payload)) :
  In (f, v) (hash_set f v h).
Proof.
  induction h as [|[f' v'] h IH]; simpl; [left; reflexivity|].
  destruct (String.eqb f f') eqn:E; [|right; exact IH].
  apply String.eqb_eq in E. subst f'. left. reflexivity.
Qed.

Lemma Z_to_string_nonempty (z : Z) : Z_to_string z <> EmptyString.
Proof. apply (py_int_nonempty _ z), py_int_Z_to_string. Qed.

Lemma recorded_here_info (me : string) (uid : option Z) (t : json) :
  recorded_here me (json_dumps (connection_info me uid t)) = true.
Proof. unfold recorded_here, json_loads, json_dumps, connection_info, dict_get. simpl. apply String.eqb_refl. Qed.

Lemma count_value_range (st : store) (sid z : Z) :
  count_value st sid = Some z -> INT64_MIN <= z <= INT64_MAX.
Proof.
  unfold count_value. destruct (st !! key_session_count sid) as [[s|h]|]; [|discriminate|].
  - intros H. apply (redis_int_spec s z H).
  - intros H; injection H as <-. unfold INT64_MIN, INT64_MAX. lia.
Qed.

Lemma count_value_store (st : store) (sid z : Z) :
  count_value st sid = Some z ->
  <[key_session_count sid := RStr (Z_to_string z)]> st =
    match st !! key_session_count sid with
    | Some _ => st
    | None => <[key_session_count sid := RStr "0"]> st
    end.
Proof.
  unfold count_value. destruct (st !! key_session_count sid) as [[s|h]|] eqn:E; [|discriminate|].
  - intros H. destruct (redis_int_spec s z H) as [-> _]. apply insert_id, E.
  - intros H; injection H as <-. reflexivity.
Qed.

(** When the store commands of [connect] succeed (the session's key is a
    hash or absent, the counter is absent or an integer below the 64-bit
    maximum), the hash gets the field [connection_id] holding the JSON of
    [connection_info], which names this server as owner; the reverse
    mapping holds the decimal text of [session_id]; the counter is
    incremented; the hash, the mapping and the counter get an expiry of
    3600 s. *)
Theorem connect_records_entry (net : cmd -> bool) (reg_net : reg_cmd -> bool) (ws : websocket)
    (cid : string) (sid : Z) (uid : option Z) (t : json) (w : world) (z0 : Z) :
  (forall c, reg_net c = true) ->
  (forall s, redis w !! key_session_connections sid <> Some (RStr s)) ->
  count_value (redis w) sid = Some z0 -> z0 < INT64_MAX ->
  let r := connect net reg_net true ws cid sid uid t w in
  let p := json_dumps (connection_info (server_id w) uid t) in
  fst r = Ok tt /\
  local_connections (snd r) !! cid = Some ws /\
  hfields (key_session_connections sid) (redis (snd r)) =
    hash_set cid p (hfields (key_session_connections sid) (redis w)) /\
  In (cid, p) (hfields (key_session_connections sid) (redis (snd r))) /\
  recorded_here (server_id w) p = true /\
  redis (snd r) !! key_connection_session cid = Some (RStr (Z_to_string sid)) /\
  count_value (redis (snd r)) sid = Some (z0 + 1) /\
  expiries (snd r) = expiries w ++ [(key_session_connections sid, 3600);
                                    (key_connection_session cid, 3600);
                                    (key_session_count sid, 3600)].
Proof.
  intros Hreg Hk Hc Hmax r p. unfold r.
  rewrite (connect_ok_store net reg_net ws cid sid uid t w z0 Hreg Hk Hc Hmax).
  cbn [fst snd redis local_connections expiries with_redis with_local with_expiries]. fold p.
  assert (Hh : hfields (key_session_connections sid)
     (<[key_session_count sid := RStr (Z_to_string (z0 + 1))]>
        (<[key_connection_session cid := RStr (Z_to_string sid)]>
           (<[key_session_connections sid :=
                RHash (hash_set cid p (hfields (key_session_connections sid) (redis w)))]>
              (redis w)))) = hash_set cid p (hfields (key_session_connections sid) (redis w))).
  { unfold hfields at 1.
    rewrite lookup_insert_ne by (apply key_count_not_conns).
    rewrite lookup_insert_ne by (apply not_eq_sym, key_conns_not_conn).
    rewrite lookup_insert_eq. reflexivity. }
  split; [reflexivity|]. split; [apply lookup_insert_eq|].
  split; [exact Hh|]. split; [rewrite Hh; apply hash_set_in|].
  split; [apply recorded_here_info|]. split; [|split; [|reflexivity]].
  - rewrite lookup_insert_ne by (apply key_count_not_conn). apply lookup_insert_eq.
  - unfold count_value. rewrite lookup_insert_eq. apply redis_int_Z_to_string.
    pose proof (count_value_range _ _ _ Hc). lia.
Qed.

(** Round trip on an initialized manager whose store commands all
    succeed: for a connection id not yet in the session's hash and without
    a reverse mapping, and a counter absent or an integer below the 64-bit
    maximum, [connect] followed by [disconnect] leaves every key of the
    store with the value it had (a missing counter now holds "0"); the
    local registry loses the id; the expiries that [connect] set on the
    hash, the mapping and the counter remain recorded. *)
Theorem connect_disconnect_restores_store (net : cmd -> bool) (reg_net : reg_cmd -> bool)
    (ws : websocket) (cid : string) (sid : Z) (uid : option Z) (t : json) (w : world) (z0 : Z) :
  initialized w = true ->
  (forall c, net c = true) ->
  (forall c, reg_net c = true) ->
  (forall s, redis w !! key_session_connections sid <> Some (RStr s)) ->
  redis w !! key_session_connections sid <> Some (RHash []) ->
  ~ In cid (hfields (key_session_connections sid) (redis w)).*1 ->
  redis w !! key_connection_session cid = None ->
  count_value (redis w) sid = Some z0 -> z0 < INT64_MAX ->
  disconnect net cid (snd (connect net reg_net true ws cid sid uid t w)) =
    (Ok tt, with_expiries
              (with_redis (with_local w (delete cid (local_connections w)))
                 (match redis w !! key_session_count sid with
                  | Some _ => redis w
                  | None => <[key_session_count sid := RStr "0"]> (redis w)
                  end))
              (expiries w ++ [(key_session_connections sid, 3600);
                              (key_connection_session cid, 3600);
                              (key_session_count sid, 3600)])).
Proof.
  intros Hinit Hnet Hreg Hk He Hfresh Hmap Hc Hmax.
  rewrite <- (count_value_store _ _ _ Hc).
  pose proof (count_value_range _ _ _ Hc) as Hr.
  rewrite (connect_ok_store net reg_net ws cid sid uid t w z0 Hreg Hk Hc Hmax).
  cbn [snd].
  set (kc := key_session_connections sid) in *. set (km := key_connection_session cid) in *.
  set (kn := key_session_count sid) in *.
  set (p := json_dumps (connection_info (server_id w) uid t)).
  set (h := hfields kc (redis w)) in *.
  assert (Nnm : kn <> km) by apply key_count_not_conn.
  assert (Nnc : kn <> kc) by apply key_count_not_conns.
  assert (Ncm : kc <> km) by apply key_conns_not_conn.
  rewrite (hash_set_fresh cid p h Hfresh).
  set (S1 := <[kn := RStr (Z_to_string (z0 + 1))]> (<[km := RStr (Z_to_string sid)]>
               (<[kc := RHash (h ++ [(cid, p)])]> (redis w)))).
  assert (G : r_get km S1 = Ok (Some (Z_to_string sid), S1)).
  { unfold r_get, S1. rewrite lookup_insert_ne by congruence. rewrite lookup_insert_eq. reflexivity. }
  set (S2 := match h with [] => delete kc S1 | _ => <[kc := RHash h]> S1 end).
  assert (D : r_hdel kc cid S1 = Ok ((length (h ++ [(cid, p)]) - length h)%nat, S2)).
  { unfold r_hdel, S1, S2.
    rewrite lookup_insert_ne by congruence. rewrite lookup_insert_ne by congruence.
    rewrite lookup_insert_eq. rewrite (filter_fresh cid p h Hfresh). reflexivity. }
  set (S3 := delete km S2).
  assert (L3 : S3 !! kn = Some (RStr (Z_to_string (z0 + 1)))).
  { unfold S3, S2. rewrite lookup_delete_ne by congruence.
    destruct h; [rewrite lookup_delete_ne by congruence|rewrite lookup_insert_ne by congruence];
      unfold S1; apply lookup_insert_eq. }
  assert (C : r_decr kn S3 = Ok (z0, <[kn := RStr (Z_to_string z0)]> S3)).
  { unfold r_decr. rewrite L3.
    rewrite (redis_incrby_ok (-1) _ (z0 + 1)) by
      (try apply redis_int_Z_to_string; lia).
    replace (z0 + 1 + -1) with z0 by lia. reflexivity. }
  assert (Fin : <[kn := RStr (Z_to_string z0)]> S3 = <[kn := RStr (Z_to_string z0)]> (redis w)).
  { apply map_eq_iff. intros i.
    destruct (decide (i = kn)) as [->|Hn]; [rewrite !lookup_insert_eq; reflexivity|].
    rewrite !lookup_insert_ne by congruence. unfold S3.
    destruct (decide (i = km)) as [->|Hm]; [rewrite lookup_delete_eq, Hmap; reflexivity|].
    rewrite lookup_delete_ne by congruence. unfold S2.
    destruct (decide (i = kc)) as [->|Hc'].
    - unfold h, hfields in *.
      destruct (redis w !! kc) as [[s|h0]|] eqn:Ek; [exfalso; exact (Hk s eq_refl)| |].
      + destruct h0 as [|x h0]; [contradiction|]. rewrite lookup_insert_eq. reflexivity.
      + rewrite lookup_delete_eq. reflexivity.
    - assert (E : S1 !! i = redis w !! i).
      { unfold S1. rewrite !lookup_insert_ne by congruence. reflexivity. }
      destruct h; [rewrite lookup_delete_ne by congruence|rewrite lookup_insert_ne by congruence];
        exact E. }
  assert (Hs := Z_to_string_nonempty sid).
  assert (Hi := py_int_Z_to_string sid).
  unfold disconnect, GET, HDEL, DELETE, DECR, HLEN, int_of, call; unfold_monad.
  cbn [local_connections initialized with_local with_redis with_expiries redis expiries
       negb fst snd].
  rewrite Hinit. cbn [negb]. cbv beta iota. rewrite !Hnet.
  cbn [local_connections initialized with_local with_redis with_expiries redis expiries].
  fold km. rewrite G.
  cbv beta iota.
  assert (Hi' := Hi). destruct (Z_to_string sid) as [|a s'] eqn:Ez; [contradiction|].
  rewrite Hi'. cbv beta iota. rewrite (Hnet (CHDel (key_session_connections sid) cid)).
  cbn [local_connections initialized with_local with_redis with_expiries redis expiries].
  fold kc. rewrite D.
  cbv beta iota. unfold r_delete. cbv beta iota.
  cbn [local_connections initialized with_local with_redis with_expiries redis expiries].
  fold S3.
  rewrite (Hnet (CDecr (key_session_count sid))). fold kn. rewrite C. cbv beta iota.
  cbn [local_connections initialized with_local with_redis with_expiries redis expiries].
  rewrite Fin, (Hnet (CHLen kc)).
  destruct (r_hlen kc _) as [[m st5]|e] eqn:E5.
  - apply r_hlen_same in E5. subst st5. rewrite delete_insert_eq. reflexivity.
  - apply r_hlen_err in E5. subst e. rewrite delete_insert_eq. reflexivity.
Qed.

Lemma connect_writes_entry (net : cmd -> bool) (reg_net : reg_cmd -> bool) (ws : websocket)
    (cid : string) (sid : Z) (uid : option Z) (t : json) (w : world) :
  (forall c, reg_net c = true) ->
  (forall s, redis w !! key_session_connections sid <> Some (RStr s)) ->
  exists w',
    connect net reg_net true ws cid sid uid t w = (Ok tt, w') /\
    local_connections w' = <[cid := ws]> (local_connections w) /\
    initialized w' = initialized w /\ server_id w' = server_id w /\
    redis w' !! key_session_connections sid =
      Some (RHash (hash_set cid (json_dumps (connection_info (server_id w) uid t))
                     (hfields (key_session_connections sid) (redis w)))) /\
    redis w' !! key_connection_session cid = Some (RStr (Z_to_string sid)).
Proof.
  intros Hreg Hk.
  set (p := json_dumps (connection_info (server_id w) uid t)).
  set (st1 := <[key_session_connections sid :=
              RHash (hash_set cid p (hfields (key_session_connections sid) (redis w)))]> (redis w)).
  assert (E1 : exists n, r_hset (key_session_connections sid) cid p (redis w) = Ok (n, st1)).
  { unfold r_hset, st1, hfields.
    destruct (redis w !! key_session_connections sid) as [[s|h]|];
      [exfalso; eapply Hk; reflexivity|eexists; reflexivity|eexists; reflexivity]. }
  destruct E1 as [n E1].
  assert (X1 : st1 !! key_session_connections sid =
               Some (RHash (hash_set cid p (hfields (key_session_connections sid) (redis w)))))
    by apply lookup_insert_eq.
  set (st2 := <[key_connection_session cid := RStr (Z_to_string sid)]> st1).
  assert (L2 : st2 !! key_session_connections sid = st1 !! key_session_connections sid /\
               st2 !! key_connection_session cid = Some (RStr (Z_to_string sid))).
  { split; [apply lookup_insert_ne, not_eq_sym, key_conns_not_conn|apply lookup_insert_eq]. }
  rewrite X1 in L2.
  unfold connect, HSET, EXPIRE, SET, INCR, HLEN, reg_call, call, set_expiry; unfold_monad.
  cbv [negb]; cbv beta iota. simpl. rewrite !Hreg. fold p. rewrite E1. simpl.
  rewrite X1. simpl. fold st2.
  destruct (r_incr (key_session_count sid) st2) as [[z st3]|e] eqn:E3;
    [|apply r_incr_err in E3; subst e]; simpl.
  all: reg_cases.
  all: eexists; (split; [reflexivity|]).
  all: cbn [with_expiries with_redis with_local expiries redis local_connections initialized
            server_id].
  all: (split; [reflexivity|]); (split; [reflexivity|]); (split; [reflexivity|]).
  all: repeat match goal with
       | H : r_incr _ ?s = Ok (_, ?s') |- context [?s' !! ?k] =>
           rewrite (r_incr_other _ k _ _ _ H) by (apply not_eq_sym; first
             [apply key_count_not_conns | apply key_count_not_conn])
       | H : r_expire _ ?s = Ok (_, ?s') |- context [?s'] =>
           rewrite (r_expire_same _ _ _ _ H)
       | H : r_hlen _ ?s = Ok (_, ?s') |- context [?s'] =>
           rewrite (r_hlen_same _ _ _ _ H)
       end; exact L2.
Qed.

(** [connect] does not look at [_initialized] but [disconnect] does: on a
    manager that is not initialized (never initialized, or cleaned up),
    [connect] then [disconnect] removes the socket from the local registry
    but leaves the connection's hash field and reverse mapping in the store. *)
Theorem uninitialized_disconnect_keeps_entry (net : cmd -> bool) (reg_net : reg_cmd -> bool)
    (ws : websocket) (cid : string) (sid : Z) (uid : option Z) (t : json) (w : world) :
  initialized w = false ->
  (forall c, reg_net c = true) ->
  (forall s, redis w !! key_session_connections sid <> Some (RStr s)) ->
  let w2 := snd (disconnect net cid (snd (connect net reg_net true ws cid sid uid t w))) in
  local_connections w2 !! cid = None /\
  In (cid, json_dumps (connection_info (server_id w) uid t))
     (hfields (key_session_connections sid) (redis w2)) /\
  redis w2 !! key_connection_session cid = Some (RStr (Z_to_string sid)).
Proof.
  intros Hinit Hreg Hk w2. unfold w2.
  destruct (connect_writes_entry net reg_net ws cid sid uid t w Hreg Hk)
    as (w' & E & Hl & Hi & _ & Hc & Hm).
  rewrite E. unfold disconnect; unfold_monad. simpl. rewrite Hi, Hinit. simpl.
  split; [apply lookup_delete_eq|]. split; [|exact Hm].
  unfold hfields. rewrite Hc. apply hash_set_in.
Qed.

Lemma cleanup_uninitializes (cb cr : res unit) (w : world) :
  cr <> Err CancelledError -> initialized (snd (cleanup cb cr w)) = false.
Proof.
  intros Hc. unfold cleanup, listener_guard, try_except_cancelled; unfold_monad.
  destruct w as [st pub loc me init ps t closes ws ex]; simpl.
  destruct t as [[[|]]|], ps, cr as [[]|[]], cb as [[]|[]]; simpl; congruence.
Qed.

(** After [cleanup] (whose [pubsub.close()] is not cancelled),
    [send_to_session] returns 0 and changes nothing, and [disconnect] only
    removes the id from the local registry: neither touches the store. *)
Theorem after_cleanup_store_untouched (net : cmd -> bool) (sock_ok : websocket -> bool)
    (cb cr : res unit) (w : world) (sid : Z) (m : dict) (c : string) :
  cr <> Err CancelledError ->
  let w' := snd (cleanup cb cr w) in
  send_to_session net sock_ok sid m w' = (Ok 0%nat, w') /\
  disconnect net c w' = (Ok tt, with_local w' (delete c (local_connections w'))).
Proof.
  intros Hc w'. assert (H := cleanup_uninitializes cb cr w Hc). fold w' in H.
  split.
  - unfold send_to_session; unfold_monad. rewrite H. reflexivity.
  - unfold disconnect; unfold_monad. simpl. rewrite H. reflexivity.
Qed.

Lemma send_local_published (net : cmd -> bool) (sock_ok : websocket -> bool) (sid : Z)
    (m : json) (w : world) :
  published (snd (send_to_local_connections net sock_ok sid m w)) = published w.
Proof.
  destruct (net (CHGetAll (key_session_connections sid))) eqn:Hn.
  - destruct (redis w !! key_session_connections sid) as [[s|h]|] eqn:Hk.
    + rewrite send_local_fail by (right; exists s; exact Hk). reflexivity.
    + destruct (send_local_run net sock_ok sid m w Hn) as (n & ex & ws & Heq & _);
        [congruence|]. rewrite Heq. simpl.
      destruct (disconnect_each_fields net ex (with_writes w (writes w ++ ws))) as (_ & _ & _ & Hp).
      exact Hp.
    + destruct (send_local_run net sock_ok sid m w Hn) as (n & ex & ws & Heq & _);
        [congruence|]. rewrite Heq. simpl.
      destruct (disconnect_each_fields net ex (with_writes w (writes w ++ ws))) as (_ & _ & _ & Hp).
      exact Hp.
  - rewrite send_local_fail by (left; exact Hn). reflexivity.
Qed.

(** When the publish of [send_to_session] goes through, the message is
    published on [session:{session_id}] with this server's id added, and
    the listener, which subscribes to [session:*], forwards that very
    message to the local connections of the same session: it does not skip
    messages of its own server, so local sockets get the message once from
    [send_to_session] and once from the listener. *)
Theorem send_to_session_echoes_to_listener (net : cmd -> bool) (sock_ok : websocket -> bool)
    (sid : Z) (m : dict) (w : world) :
  let p := json_dumps (JObj (dict_set "server_id" (JStr (server_id w)) m)) in
  initialized w = true ->
  net (CPublish (channel_of sid) p) = true ->
  published (snd (send_to_session net sock_ok sid m w)) = published w ++ [(channel_of sid, p)] /\
  forall w0,
    process_message net sock_ok (PsMessage "pmessage" (channel_of sid) p) w0 =
      (Ok tt, snd (send_to_local_connections net sock_ok sid
                     (JObj (dict_set "server_id" (JStr (server_id w)) m)) w0)).
Proof.
  intros p Hinit Hpub. split.
  - unfold send_to_session, PUBLISH; unfold_monad. rewrite Hinit. cbn [negb].
    fold p. rewrite Hpub.
    set (w1 := with_published w (published w ++ [(channel_of sid, p)])).
    destruct (send_local_ok net sock_ok sid (JObj m) w1) as [n Hn].
    pose proof (send_local_published net sock_ok sid (JObj m) w1) as Hp.
    destruct (send_to_local_connections net sock_ok sid (JObj m) w1) as [r2 w2].
    simpl in Hn, Hp. subst r2.
    unfold get_session_connection_count, HLEN, call; unfold_monad.
    destruct (net (CHLen _)); [destruct (r_hlen _ _) as [[? ?]|e] eqn:E|]; simpl;
      try (apply r_hlen_err in E; subst e; simpl); exact Hp.
  - intros w0. unfold process_message, nth_py, int_of, json_get; unfold_monad.
    cbn [ps_type ps_channel ps_data]. rewrite String.eqb_refl, py_split_channel.
    cbn [nth_error]. rewrite py_int_Z_to_string. unfold p, json_dumps. cbn [json_loads].
    destruct (send_local_ok net sock_ok sid (JObj (dict_set "server_id" (JStr (server_id w)) m)) w0)
      as [n Hn].
    destruct (send_to_local_connections net sock_ok sid
                (JObj (dict_set "server_id" (JStr (server_id w)) m)) w0) as [r w3].
    simpl in Hn. subst r. reflexivity.
Qed.

Lemma disconnect_store_det (net : cmd -> bool) (c : string) (w w' : world) :
  redis w = redis w' -> initialized w = initialized w' ->
  redis (snd (disconnect net c w)) = redis (snd (disconnect net c w')).
Proof.
  destruct w, w'; simpl; intros -> ->.
  unfold disconnect; unfold_monad. unfold r_get, r_hdel, r_delete, r_decr, r_hlen. simpl.
  repeat (match goal with
  | |- context [match ?e with _ => _ end] =>
      lazymatch type of e with
      | bool => destruct e
      | option _ => destruct e
      | string => destruct e
      | list _ => destruct e
      | rval => destruct e
      end
  | |- context [if ?e then _ else _] => destruct e
  end; simpl); reflexivity.
Qed.

Lemma disconnect_clears_or_keeps (net : cmd -> bool) (c : string) (w : world) :
  (forall x, net x = true) ->
  redis (snd (disconnect net c w)) !! key_connection_session c = None \/
  redis (snd (disconnect net c w)) = redis w.
Proof.
  intros Hnet. destruct w as [st pub loc me init ps t closes ws ex]. simpl.
  unfold disconnect; unfold_monad. unfold r_get, r_hdel, r_delete, r_decr, r_hlen. simpl.
  repeat (match goal with
  | |- context [match ?e with _ => _ end] =>
      lazymatch type of e with
      | option _ => destruct e
      | string => destruct e
      | list _ => destruct e
      | rval => destruct e
      end
  | |- context [if net ?x then _ else _] => rewrite (Hnet x)
  | |- context [if ?e then _ else _] =>
      lazymatch e with net _ => fail | _ => destruct e end
  end; simpl); try (right; reflexivity); left.
  all: rewrite ?lookup_insert_ne by (apply key_count_not_conn); apply lookup_delete_eq.
Qed.

(** When every store command succeeds, a second [disconnect] of the same
    id changes nothing. *)
Theorem disconnect_idempotent (net : cmd -> bool) (c : string) (w : world) :
  (forall x, net x = true) ->
  disconnect net c (snd (disconnect net c w)) = (Ok tt, snd (disconnect net c w)).
Proof.
  intros Hnet.
  destruct (disconnect_spec net c w) as [st' [E _]].
  assert (Hk := disconnect_clears_or_keeps net c w Hnet).
  assert (Hdet := disconnect_store_det net c w (snd (disconnect net c w))).
  rewrite E in Hk, Hdet |- *. cbn [snd redis with_redis] in Hk.
  destruct Hk as [Hk|Hk].
  - rewrite disconnect_no_mapping by exact Hk. simpl. rewrite delete_delete_eq.
    destruct w; reflexivity.
  - subst st'.
    destruct (disconnect_spec net c (with_redis (with_local w (delete c (local_connections w))) (redis w)))
      as [st'' [E2 _]].
    simpl in Hdet |- *. rewrite E2 in Hdet |- *. simpl in Hdet.
    rewrite <- (Hdet eq_refl eq_refl). simpl. rewrite delete_delete_eq.
    destruct w; reflexivity.
Qed.

(** ** Instances of the properties above on the demo deployment *)

Lemma connect_records_entry_witness :
  (forall c, reg_all c = true) /\
  (forall s, redis w_demo !! key_session_connections 1 <> Some (RStr s)) /\
  count_value (redis w_demo) 1 = Some 4 /\ 4 < INT64_MAX /\
  let r := connect net_all reg_all true (WebSocket 5) "c5" 1 (Some 7) (JNum 0) w_demo in
  let p := json_dumps (connection_info (server_id w_demo) (Some 7) (JNum 0)) in
  fst r = Ok tt /\
  local_connections (snd r) !! "c5" = Some (WebSocket 5) /\
  hfields (key_session_connections 1) (redis (snd r)) =
    hash_set "c5" p (hfields (key_session_connections 1) (redis w_demo)) /\
  In ("c5", p) (hfields (key_session_connections 1) (redis (snd r))) /\
  recorded_here (server_id w_demo) p = true /\
  redis (snd r) !! key_connection_session "c5" = Some (RStr (Z_to_string 1)) /\
  count_value (redis (snd r)) 1 = Some (4 + 1) /\
  expiries (snd r) = expiries w_demo ++ [(key_session_connections 1, 3600);
                                         (key_connection_session "c5", 3600);
                                         (key_session_count 1, 3600)].
Proof.
  assert (H1 : forall c, reg_all c = true) by (intros; reflexivity).
  assert (H2 : forall s, redis w_demo !! key_session_connections 1 <> Some (RStr s))
    by (intros s; vm_compute; discriminate).
  assert (H3 : count_value (redis w_demo) 1 = Some 4) by (vm_compute; reflexivity).
  assert (H4 : 4 < INT64_MAX) by (unfold INT64_MAX; lia).
  split; [exact H1|]. split; [exact H2|]. split; [exact H3|]. split; [exact H4|].
  exact (connect_records_entry net_all reg_all (WebSocket 5) "c5" 1 (Some 7) (JNum 0) w_demo 4
           H1 H2 H3 H4).
Defined.

Lemma connect_disconnect_restores_store_witness :
  initialized w_demo = true /\
  (forall c, net_all c = true) /\
  (forall c, reg_all c = true) /\
  (forall s, redis w_demo !! key_session_connections 1 <> Some (RStr s)) /\
  redis w_demo !! key_session_connections 1 <> Some (RHash []) /\
  ~ In "c5"%string (hfields (key_session_connections 1) (redis w_demo)).*1 /\
  redis w_demo !! key_connection_session "c5" = None /\
  count_value (redis w_demo) 1 = Some 4 /\ 4 < INT64_MAX /\
  disconnect net_all "c5"
    (snd (connect net_all reg_all true (WebSocket 5) "c5" 1 (Some 7) (JNum 0) w_demo)) =
    (Ok tt, with_expiries
              (with_redis (with_local w_demo (delete "c5" (local_connections w_demo)))
                 (match redis w_demo !! key_session_count 1 with
                  | Some _ => redis w_demo
                  | None => <[key_session_count 1 := RStr "0"]> (redis w_demo)
                  end))
              (expiries w_demo ++ [(key_session_connections 1, 3600);
                                   (key_connection_session "c5", 3600);
                                   (key_session_count 1, 3600)])).
Proof.
  assert (H1 : initialized w_demo = true) by reflexivity.
  assert (H2 : forall c, net_all c = true) by (intros; reflexivity).
  assert (H3 : forall c, reg_all c = true) by (intros; reflexivity).
  assert (H4 : forall s, redis w_demo !! key_session_connections 1 <> Some (RStr s))
    by (intros s; vm_compute; discriminate).
  assert (H5 : redis w_demo !! key_session_connections 1 <> Some (RHash []))
    by (vm_compute; discriminate).
  assert (H6 : ~ In "c5"%string (hfields (key_session_connections 1) (redis w_demo)).*1)
    by (vm_compute; not_in).
  assert (H7 : redis w_demo !! key_connection_session "c5" = None) by (vm_compute; reflexivity).
  assert (H8 : count_value (redis w_demo) 1 = Some 4) by (vm_compute; reflexivity).
  assert (H9 : 4 < INT64_MAX) by (unfold INT64_MAX; lia).
  do 9 (split; [assumption|]).
  exact (connect_disconnect_restores_store net_all reg_all (WebSocket 5) "c5" 1 (Some 7) (JNum 0)
           w_demo 4 H1 H2 H3 H4 H5 H6 H7 H8 H9).
Defined.

Lemma uninitialized_disconnect_keeps_entry_witness :
  let w := snd (cleanup (Ok tt) (Ok tt) w_demo) in
  initialized w = false /\
  (forall c, reg_all c = true) /\
  (forall s, redis w !! key_session_connections 1 <> Some (RStr s)) /\
  let w2 := snd (disconnect net_all "c5"
                   (snd (connect net_all reg_all true (WebSocket 5) "c5" 1 (Some 7) (JNum 0) w))) in
  local_connections w2 !! "c5" = None /\
  In ("c5"%string, json_dumps (connection_info (server_id w) (Some 7) (JNum 0)))
     (hfields (key_session_connections 1) (redis w2)) /\
  redis w2 !! key_connection_session "c5" = Some (RStr (Z_to_string 1)).
Proof.
  intros w.
  assert (H1 : initialized w = false) by (vm_compute; reflexivity).
  assert (H2 : forall c, reg_all c = true) by (intros; reflexivity).
  assert (H3 : forall s, redis w !! key_session_connections 1 <> Some (RStr s))
    by (intros s; vm_compute; discriminate).
  split; [exact H1|]. split; [exact H2|]. split; [exact H3|].
  exact (uninitialized_disconnect_keeps_entry net_all reg_all (WebSocket 5) "c5" 1 (Some 7)
           (JNum 0) w H1 H2 H3).
Defined.

Lemma after_cleanup_store_untouched_witness :
  (Ok tt : res unit) <> Err CancelledError /\
  let w' := snd (cleanup (Ok tt) (Ok tt) w_demo) in
  send_to_session net_all sock_all 1 demo_message w' = (Ok 0%nat, w') /\
  disconnect net_all "c1" w' = (Ok tt, with_local w' (delete "c1" (local_connections w'))).
Proof.
  assert (H : (Ok tt : res unit) <> Err CancelledError) by discriminate.
  split; [exact H|].
  exact (after_cleanup_store_untouched net_all sock_all (Ok tt) (Ok tt) w_demo 1 demo_message
           "c1" H).
Defined.

Lemma send_to_session_echoes_to_listener_witness :
  let p := json_dumps (JObj (dict_set "server_id" (JStr (server_id w_demo)) demo_message)) in
  initialized w_demo = true /\
  net_all (CPublish (channel_of 1) p) = true /\
  published (snd (send_to_session net_all sock_all 1 demo_message w_demo)) =
    published w_demo ++ [(channel_of 1, p)] /\
  forall w0,
    process_message net_all sock_all (PsMessage "pmessage" (channel_of 1) p) w0 =
      (Ok tt, snd (send_to_local_connections net_all sock_all 1
                     (JObj (dict_set "server_id" (JStr (server_id w_demo)) demo_message)) w0)).
Proof.
  intros p.
  assert (H1 : initialized w_demo = true) by reflexivity.
  assert (H2 : net_all (CPublish (channel_of 1) p) = true) by reflexivity.
  split; [exact H1|]. split; [exact H2|].
  exact (send_to_session_echoes_to_listener net_all sock_all 1 demo_message w_demo H1 H2).
Defined.

Lemma disconnect_idempotent_witness :
  (forall x, net_all x = true) /\
  disconnect net_all "c1" (snd (disconnect net_all "c1" w_demo)) =
    (Ok tt, snd (disconnect net_all "c1" w_demo)).
Proof.
  assert (H : forall x, net_all x = true) by (intros; reflexivity).
  split; [exact H|]. exact (disconnect_idempotent net_all "c1" w_demo H).
Defined.
End RedisWebSocketManagerExtras.
